(** * Contact-record ingestion service: validation, sanitization, batch
      pipeline and persistence, embedded from the JavaScript sources.

    - [Validation]          : the field validators, the record validator and
                              the sanitizer (validation module).
    - [Database1], [Database2] : the two definitions of the [Database] class
                              found in [database.js].
    - [SecurityMiddleware]  : the form-input middleware.
    - [Server]              : the CSV upload and form submission handlers.

    JavaScript strings are sequences of UTF-16 code units, modelled as
    [list N].  Numbers are modelled on the integers plus [NaN]; fractional
    values and infinities are outside the model. *)

From Stdlib Require Import ZArith NArith Ascii String DecimalString DecimalPos List Lia.
From stdpp Require Import gmap strings list.

Open Scope Z_scope.

(* ================================================================== *)
(** ** JavaScript values                                                *)
(* ================================================================== *)

Module JS.

(** A string literal of the source, as code units. *)
Definition u16 (s : string) : list N :=
  List.map N_of_ascii (list_ascii_of_string s).

Inductive JSValue : Type :=
  | JUndefined
  | JNull
  | JBool (b : bool)
  | JNum (z : Z)
  | JNaN
  | JStr (s : list N).

Inductive JSError : Type :=
  | TypeError (msg : string)
  | StoreError (msg : string)
  | IOError (msg : string).

(** Completion of an evaluation: a value, or a thrown error. *)
Inductive result (A : Type) : Type :=
  | Return (a : A)
  | Throw (e : JSError).
Arguments Return {A} a.
Arguments Throw {A} e.

Definition bind {A B} (m : result A) (k : A -> result B) : result B :=
  match m with
  | Return a => k a
  | Throw e => Throw e
  end.

Definition message (e : JSError) : string :=
  match e with
  | TypeError msg => msg
  | StoreError msg => msg
  | IOError msg => msg
  end.

(** ToBoolean: what [!v], [v && _] and [v || _] test. *)
Definition truthy (v : JSValue) : bool :=
  match v with
  | JUndefined | JNull | JNaN => false
  | JBool b => b
  | JNum z => negb (z =? 0)
  | JStr s => match s with [] => false | _ :: _ => true end
  end.

(** [a || b] *)
Definition or_else (a b : JSValue) : JSValue :=
  if truthy a then a else b.

Definition is_string (v : JSValue) : bool :=
  match v with JStr _ => true | _ => false end.

(** Decimal rendering of an integer-valued number.  This is what
    JavaScript prints for the safe integers (below 2^53 in absolute value);
    larger numbers, which JavaScript rounds and prints with an exponent
    from 1e21 on, are outside the model. *)
Definition decimal (z : Z) : list N :=
  u16 (NilZero.string_of_int (Z.to_int z)).

(** ToString on primitives. *)
Definition ToString (v : JSValue) : list N :=
  match v with
  | JUndefined => u16 "undefined"
  | JNull => u16 "null"
  | JBool true => u16 "true"
  | JBool false => u16 "false"
  | JNum z => decimal z
  | JNaN => u16 "NaN"
  | JStr s => s
  end.

(** [v.toString()]: there is no such method on [undefined] and [null]. *)
Definition toString_method (v : JSValue) : result (list N) :=
  match v with
  | JUndefined | JNull =>
      Throw (TypeError "Cannot read properties of undefined (reading 'toString')")
  | _ => Return (ToString v)
  end.

(** WhiteSpace and LineTerminator code units: what [trim] strips. *)
Definition isWhiteSpace (c : N) : bool :=
  ((9 <=? c) && (c <=? 13) || (c =? 32) || (c =? 160) || (c =? 5760)
   || (8192 <=? c) && (c <=? 8202) || (c =? 8232) || (c =? 8233)
   || (c =? 8239) || (c =? 8287) || (c =? 12288) || (c =? 65279))%N.

Fixpoint trimStart (s : list N) : list N :=
  match s with
  | [] => []
  | c :: r => if isWhiteSpace c then trimStart r else s
  end.

Definition trimEnd (s : list N) : list N := rev (trimStart (rev s)).

Definition trim (s : list N) : list N := trimEnd (trimStart s).

(** [v.trim()]: only strings have the method. *)
Definition trim_method (v : JSValue) : result (list N) :=
  match v with
  | JStr s => Return (trim s)
  | JUndefined | JNull =>
      Throw (TypeError "Cannot read properties of undefined (reading 'trim')")
  | _ => Throw (TypeError "trim is not a function")
  end.

(** Character classes of the regular expressions. *)
Definition isDigit (c : N) : bool := ((48 <=? c) && (c <=? 57))%N.   (* [0-9], \d *)

Definition isAlnum (c : N) : bool :=                                   (* [a-zA-Z0-9] *)
  (isDigit c || (65 <=? c) && (c <=? 90) || (97 <=? c) && (c <=? 122))%N.

(** Value of a digit in radix 10 or 16, if it is one. *)
Definition digitValue (radix : Z) (c : N) : option Z :=
  let v :=
    (if isDigit c then Some (Z.of_N c - 48)
     else if ((97 <=? c) && (c <=? 102))%N then Some (Z.of_N c - 87)
     else if ((65 <=? c) && (c <=? 70))%N then Some (Z.of_N c - 55)
     else None) in
  match v with
  | Some d => if d <? radix then Some d else None
  | None => None
  end.

(** The longest prefix of radix digits, accumulated; [None] when empty. *)
Fixpoint parseDigits (radix : Z) (acc : option Z) (s : list N) : option Z :=
  match s with
  | [] => acc
  | c :: r =>
      match digitValue radix c with
      | Some d => parseDigits radix (Some (default 0 acc * radix + d)) r
      | None => acc
      end
  end.

(** [parseInt(v)] without a radix argument: ToString, skip leading white
    space, optional sign, optional [0x]/[0X] prefix, longest digit prefix. *)
Definition parseInt (v : JSValue) : JSValue :=
  let inputS := trimStart (ToString v) in
  let '(sign, body) :=
    match inputS with
    | 45%N :: r => (-1, r)
    | 43%N :: r => (1, r)
    | _ => (1, inputS)
    end in
  let '(radix, digits) :=
    match body with
    | 48%N :: 120%N :: r => (16, r)
    | 48%N :: 88%N :: r => (16, r)
    | _ => (10, body)
    end in
  match parseDigits radix None digits with
  | Some n => JNum (sign * n)
  | None => JNaN
  end.

Definition isNaN (v : JSValue) : bool :=
  match v with JNaN => true | _ => false end.

(** [a >= k] and [a <= k] for a number [a] ([NaN] compares false). *)
Definition geq (a : JSValue) (k : Z) : bool :=
  match a with JNum z => k <=? z | _ => false end.
Definition leq (a : JSValue) (k : Z) : bool :=
  match a with JNum z => z <=? k | _ => false end.

End JS.
Export JS.

(** [result] is a monad; [x ← m; k] sequences two evaluations and stops at
    the first throw. *)
Global Instance result_ret : MRet result := @Return.
Global Instance result_bind : MBind result := fun A B k m => bind m k.

Global Instance JSValue_eq_dec : EqDecision JSValue.
Proof. solve_decision. Defined.

Global Instance JSValue_countable : Countable JSValue.
Proof.
  refine (inj_countable'
    (fun v => match v with
              | JUndefined => inl (inl 0%nat)
              | JNull => inl (inl 1%nat)
              | JNaN => inl (inl 2%nat)
              | JBool b => inl (inr b)
              | JNum z => inr (inl z)
              | JStr s => inr (inr s)
              end)
    (fun c => match c with
              | inl (inl 0%nat) => JUndefined
              | inl (inl 1%nat) => JNull
              | inl (inl _) => JNaN
              | inl (inr b) => JBool b
              | inr (inl z) => JNum z
              | inr (inr s) => JStr s
              end) _).
  by intros [].
Defined.

(** Objects with primitive fields; a missing property reads [undefined]. *)
Definition get (o : gmap string JSValue) (k : string) : JSValue :=
  default JUndefined (o !! k).


(* ================================================================== *)
(** ** validation module                                                *)
(* ================================================================== *)

(** [validator.isEmail] is an external library function.  Its verdict on a
    string is a parameter of the development.  What is fixed is the
    library's entry check: every validator of that library first asserts
    that its argument is a string and throws a [TypeError] otherwise. *)
Class EmailValidator := { isEmail : list N -> bool }.

Definition validator_isEmail `{EmailValidator} (str : JSValue) : result bool :=
  match str with
  | JStr s => Return (isEmail s)
  | _ => Throw (TypeError "Expected a string but received another type")
  end.

Record ValidationResult : Type := { isValid : bool; errors : list string }.

Module Validation.

(** [/^[a-zA-Z0-9]+$/.test(s)] *)
Definition test_alnum_plus (s : list N) : bool :=
  match s with
  | [] => false
  | _ :: _ => forallb isAlnum s
  end.

(** [/^\d{10}$/.test(s)] *)
Definition test_ten_digits (s : list N) : bool :=
  (length s =? 10)%nat && forallb isDigit s.

(** [/^[0-9][a-zA-Z0-9]{5}$/.test(s)] *)
Definition test_eircode (s : list N) : bool :=
  match s with
  | [] => false
  | c :: r => isDigit c && (length r =? 5)%nat && forallb isAlnum r
  end.

Definition isValidName (name : JSValue) : result bool :=
  if negb (truthy name) || negb (is_string name) then Return false
  else
    trimmed ← trim_method name;
    if (length trimmed =? 0)%nat || (20 <? length trimmed)%nat
    then Return false
    else Return (test_alnum_plus trimmed).

Definition isValidEmail `{EmailValidator} (email : JSValue) : result bool :=
  validator_isEmail email.

Definition isValidPhone (phone : JSValue) : result bool :=
  if negb (truthy phone) then Return false
  else
    str ← toString_method phone;
    let cleaned := List.filter isDigit str in      (* replace(/\D/g, '') *)
    Return (test_ten_digits cleaned).

Definition isValidEircode (eircode : JSValue) : result bool :=
  if negb (truthy eircode) then Return false
  else
    cleaned ← trim_method eircode;
    Return (test_eircode cleaned).

Definition isValidAge (age : JSValue) : result bool :=
  let ageNum := parseInt age in
  Return (negb (isNaN ageNum) && geq ageNum 0 && leq ageNum 120).

(** [errors.push(msg)] *)
Definition push (errors : list string) (msg : string) : list string :=
  errors ++ [msg].

Definition validateRecord `{EmailValidator}
    (record : gmap string JSValue) (source : string)
  : result ValidationResult :=
  let errors := [] in
  ok ← isValidName (get record "first_name");
  let errors :=
    if negb ok
    then push errors "First name must contain only letters/numbers and be max 20 characters"
    else errors in
  ok ← isValidName (get record "last_name");
  let errors :=
    if negb ok
    then push errors "Last name must contain only letters/numbers and be max 20 characters"
    else errors in
  ok ← isValidEmail (get record "email");
  let errors := if negb ok then push errors "Invalid email format" else errors in
  errors ←
    (if String.eqb source "form" then
       errors ←
         (if negb (truthy (get record "phone_number"))
          then Return (push errors "Phone number is required")
          else
            ok ← isValidPhone (get record "phone_number");
            Return (if negb ok
                    then push errors "Phone number must be exactly 10 digits"
                    else errors));
       if negb (truthy (get record "eircode"))
       then Return (push errors "Eircode is required")
       else
         ok ← isValidEircode (get record "eircode");
         Return (if negb ok
                 then push errors
                   "Eircode must start with a number and be exactly 6 alphanumeric characters"
                 else errors)
     else if String.eqb source "csv" then
       if truthy (get record "age")
       then
         ok ← isValidAge (get record "age");
         Return (if negb ok
                 then push errors "Age must be a number between 0 and 120"
                 else errors)
       else Return errors
     else Return errors);
  Return {| isValid := (length errors =? 0)%nat; errors := errors |}.

(** [replace(/<[^>]*>/g, '')]: scanning left to right, a [<] that is
    followed somewhere by a [>] opens a match that runs to the first such
    [>]; the match is deleted and scanning resumes after it.  A [<] with no
    [>] after it is kept. *)
Fixpoint stripTags_from (inTag : bool) (s : list N) : list N :=
  match s with
  | [] => []
  | c :: r =>
      if inTag then
        if (c =? 62)%N then stripTags_from false r else stripTags_from true r
      else if (c =? 60)%N && existsb (N.eqb 62) r then stripTags_from true r
      else c :: stripTags_from false r
  end.

Definition stripTags (s : list N) : list N := stripTags_from false s.

(** The character class of the second [replace]: less-than, greater-than,
    double quote, single quote and ampersand. *)
Definition isSpecial (c : N) : bool :=
  ((c =? 60) || (c =? 62) || (c =? 34) || (c =? 39) || (c =? 38))%N.

(** The second [replace]: every character of that class is deleted. *)
Definition removeSpecial (s : list N) : list N :=
  List.filter (fun c => negb (isSpecial c)) s.

Definition sanitizeInput (input : JSValue) : JSValue :=
  match input with
  | JStr s => JStr (trim (removeSpecial (stripTags s)))
  | _ => input
  end.

(** The loop assigns each entry of the record to a fresh object.  The
    assignment to the key [__proto__] (an own property of a parsed JSON
    body that has it) runs the prototype setter and creates no property:
    that key is not in the result. *)
Definition sanitizeRecord (record : gmap string JSValue) : gmap string JSValue :=
  delete "__proto__"
    ((fun value => if is_string value then sanitizeInput value else value)
       <$> record).

End Validation.

(** An object literal. *)
Definition obj (l : list (string * JSValue)) : gmap string JSValue :=
  list_to_map l.

(* ================================================================== *)
(** ** The relational store                                             *)
(* ================================================================== *)

(** The table [mysql_table]: one row per email (the unique key).  The
    columns [id] and [created_at] are filled by the server and not
    modelled.  Keys are compared exactly: two emails that the column's
    collation equates (case variants) are one row in the server and two
    keys here, so the model speaks for emails written in one form. *)
Record Row : Type := {
  col_first_name : JSValue;
  col_last_name : JSValue;
  col_phone_number : JSValue;
  col_eircode : JSValue;
  col_age : JSValue
}.

(** The two SQL statements of the module, with their bound parameters. *)
Inductive Statement : Type :=
  | UpsertContact (params : list JSValue)
      (* INSERT (first_name, last_name, email, phone_number, eircode, age)
         ON DUPLICATE KEY UPDATE first_name, last_name, phone_number,
         eircode, age *)
  | UpsertNameAge (params : list JSValue).
      (* INSERT (first_name, last_name, email, age)
         ON DUPLICATE KEY UPDATE first_name, last_name, age *)

Definition run_statement (t : gmap JSValue Row) (stmt : Statement)
  : gmap JSValue Row :=
  match stmt with
  | UpsertContact [fn; ln; em; ph; ei; ag] =>
      <[em := {| col_first_name := fn; col_last_name := ln;
                 col_phone_number := ph; col_eircode := ei;
                 col_age := ag |}]> t
  | UpsertNameAge [fn; ln; em; ag] =>
      match t !! em with
      | Some old =>
          <[em := {| col_first_name := fn; col_last_name := ln;
                     col_phone_number := col_phone_number old;
                     col_eircode := col_eircode old;
                     col_age := ag |}]> t
      | None =>
          <[em := {| col_first_name := fn; col_last_name := ln;
                     col_phone_number := JNull; col_eircode := JNull;
                     col_age := ag |}]> t
      end
  | _ => t
  end.

(** The server: the committed table, and the outcome of the requests it
    will receive next ([true]: that request fails; past the end of the
    script every request succeeds). *)
Record Store : Type := {
  committed : gmap JSValue Row;
  script : list bool
}.

(** A pooled connection inside a transaction: the statements executed on
    it since [beginTransaction], not yet visible in the table. *)
Record Connection : Type := { pending : list Statement }.

(** The driver, as far as the module uses it.  The requests that can fail
    are the statements and the commit; acquiring a connection, opening a
    transaction and rolling back change nothing in the table and are taken
    to succeed.  One request is served at a time. *)
Module MySQL.

Definition request (st : Store) : bool * Store :=
  match script st with
  | [] => (false, st)
  | fails :: rest => (fails, {| committed := committed st; script := rest |})
  end.

(** [pool.execute(sql, params)]: runs on a connection of its own, in
    autocommit mode. *)
Definition pool_execute (stmt : Statement) (st : Store) : result unit * Store :=
  let '(fails, st) := request st in
  if fails then (Throw (StoreError "query failed"), st)
  else (Return (),
        {| committed := run_statement (committed st) stmt; script := script st |}).

Definition beginTransaction : Connection := {| pending := [] |}.

(** [connection.execute(sql, params)] inside the transaction. *)
Definition connection_execute (conn : Connection) (stmt : Statement) (st : Store)
  : result Connection * Store :=
  let '(fails, st) := request st in
  if fails then (Throw (StoreError "query failed"), st)
  else (Return {| pending := pending conn ++ [stmt] |}, st).

(** [connection.commit()]: the pending statements take effect together. *)
Definition commit (conn : Connection) (st : Store) : result unit * Store :=
  let '(fails, st) := request st in
  if fails then (Throw (StoreError "commit failed"), st)
  else (Return (),
        {| committed := foldl run_statement (committed st) (pending conn);
           script := script st |}).

(** [connection.rollback()]: the pending statements are dropped. *)
Definition rollback (conn : Connection) : Connection := {| pending := [] |}.

End MySQL.

Record BulkResult : Type := { success : bool; count : nat }.

(** What [index.js] and the tests use of the exported [Database] object. *)
Class Database : Type := {
  insertRecord : gmap string JSValue -> Store -> result unit * Store;
  insertBulkRecords :
    list (gmap string JSValue) -> Store -> result BulkResult * Store
}.

(* ================================================================== *)
(** ** database module, first definition                                *)
(* ================================================================== *)

Module Database1.

Definition execute (stmt : Statement) (st : Store) : result unit * Store :=
  MySQL.pool_execute stmt st.

Definition insertRecord (data : gmap string JSValue) (st : Store)
  : result unit * Store :=
  let params :=
    [ get data "first_name";
      get data "last_name";
      get data "email";
      or_else (get data "phone_number") JNull;
      or_else (get data "eircode") JNull;
      or_else (get data "age") JNull ] in
  execute (UpsertContact params) st.

(** The [for] loop of [insertBulkRecords]: each record goes through
    [this.insertRecord], that is through the pool. *)
Fixpoint insertEach (records : list (gmap string JSValue)) (st : Store)
  : result unit * Store :=
  match records with
  | [] => (Return (), st)
  | record :: rest =>
      match insertRecord record st with
      | (Return _, st) => insertEach rest st
      | (Throw e, st) => (Throw e, st)
      end
  end.

Definition insertBulkRecords (records : list (gmap string JSValue)) (st : Store)
  : result BulkResult * Store :=
  let connection := MySQL.beginTransaction in
  match insertEach records st with
  | (Return _, st) =>
      match MySQL.commit connection st with
      | (Return _, st) =>
          (Return {| success := true; count := length records |}, st)
      | (Throw e, st) => let _ := MySQL.rollback connection in (Throw e, st)
      end
  | (Throw e, st) => let _ := MySQL.rollback connection in (Throw e, st)
  end.

End Database1.

Definition database1 : Database :=
  {| insertRecord := Database1.insertRecord;
     insertBulkRecords := Database1.insertBulkRecords |}.

(* ================================================================== *)
(** ** database module, second definition                               *)
(* ================================================================== *)

Module Database2.

Definition execute (stmt : Statement) (st : Store) : result unit * Store :=
  MySQL.pool_execute stmt st.

Definition insertRecord (data : gmap string JSValue) (st : Store)
  : result unit * Store :=
  let params :=
    [ get data "first_name";
      get data "last_name";
      get data "email";
      or_else (get data "phone_number") JNull;
      or_else (get data "eircode") JNull;
      or_else (get data "age") JNull ] in
  execute (UpsertContact params) st.

Definition bulkParams (record : gmap string JSValue) : list JSValue :=
  [ get record "first_name";
    get record "last_name";
    get record "email";
    or_else (get record "age") JNull ].

(** The [for] loop of [insertBulkRecords]: each record is executed on the
    transaction's connection. *)
Fixpoint insertEach (connection : Connection)
    (records : list (gmap string JSValue)) (st : Store)
  : result Connection * Store :=
  match records with
  | [] => (Return connection, st)
  | record :: rest =>
      match MySQL.connection_execute connection
              (UpsertNameAge (bulkParams record)) st with
      | (Return connection, st) => insertEach connection rest st
      | (Throw e, st) => (Throw e, st)
      end
  end.

Definition insertBulkRecords (records : list (gmap string JSValue)) (st : Store)
  : result BulkResult * Store :=
  let connection := MySQL.beginTransaction in
  match insertEach connection records st with
  | (Return connection, st) =>
      match MySQL.commit connection st with
      | (Return _, st) =>
          (Return {| success := true; count := length records |}, st)
      | (Throw e, st) => let _ := MySQL.rollback connection in (Throw e, st)
      end
  | (Throw e, st) => let _ := MySQL.rollback connection in (Throw e, st)
  end.

End Database2.

Definition database2 : Database :=
  {| insertRecord := Database2.insertRecord;
     insertBulkRecords := Database2.insertBulkRecords |}.

(* ================================================================== *)
(** ** middleware module                                                *)
(* ================================================================== *)

Inductive MiddlewareOutcome : Type :=
  | MissingRequiredField (field : string)          (* 400 *)
  | ValidationFailed (errors : list string)        (* 400 *)
  | ValidationCrashed                              (* 500 *)
  | Next.

Module SecurityMiddleware.

Definition requiredFields : list string :=
  ["firstName"; "lastName"; "email"; "phoneNumber"; "eircode"].

(** The snake-case record the middleware validates. *)
Definition formData (body : gmap string JSValue) : gmap string JSValue :=
  obj [ ("first_name", or_else (get body "firstName") (get body "first_name"));
        ("last_name", or_else (get body "lastName") (get body "last_name"));
        ("email", get body "email");
        ("phone_number", or_else (get body "phoneNumber") (get body "phone_number"));
        ("eircode", get body "eircode") ].

(** The middleware returned by [validateFormInput()], applied to
    [req.body]; the second component is [req.body] afterwards. *)
Definition validateFormInput `{EmailValidator} (body : gmap string JSValue)
  : MiddlewareOutcome * gmap string JSValue :=
  let body := Validation.sanitizeRecord body in
  match List.find (fun field => negb (truthy (get body field))) requiredFields with
  | Some field => (MissingRequiredField field, body)
  | None =>
      match Validation.validateRecord (formData body) "form" with
      | Return validation =>
          if negb (isValid validation)
          then (ValidationFailed (errors validation), body)
          else (Next, body)
      | Throw _ => (ValidationCrashed, body)
      end
  end.

End SecurityMiddleware.

(* ================================================================== *)
(** ** index module: the CSV upload handler                             *)
(* ================================================================== *)

(** An entry of the [errors] array of the summary. *)
Inductive ErrorEntry : Type :=
  | RowInvalid (row : nat) (data : gmap string JSValue) (errors : list string)
  | RowFailed (row : nat) (error : string).

Record Summary : Type := {
  totalRows : nat;
  validRecords : nat;
  invalidRecords : nat;
  summary_errors : list ErrorEntry
}.

Inductive Response : Type :=
  | NoFileUploaded                      (* 400 *)
  | ProcessingCompleted (summary : Summary)   (* 200, success: true *)
  | ProcessingFailed (error : string).  (* 500, success: false *)

(** An upload as the handler receives it: the temporary file written by
    the upload middleware (if any), the rows the CSV parser emits from it,
    and whether the parser stream then ends or emits an error (the
    listeners are attached to the parser stream, the one [pipe] returns;
    an error of the file read stream itself reaches no listener and is
    outside the model). *)
Record Upload : Type := {
  file_path : option string;
  rows : list (gmap string (list N));
  stream_error : option string
}.

(** What the handler acts on: the store, the files of the upload
    directory, and the record of its calls to [insertBulkRecords]. *)
Record World : Type := {
  store : Store;
  uploads : gset string;
  bulk_calls : list (list (gmap string JSValue))
}.

(** The answers of the form handler. *)
Inductive FormResponse : Type :=
  | FormSaved (data : gmap string JSValue)   (* 200, success: true *)
  | EmailExists                              (* 409 *)
  | FormFailed.                              (* 500 *)

(** The errors of the driver carry a code; the form handler looks for
    [ER_DUP_ENTRY].  Which errors carry it is a parameter. *)
Class ErrorCodes := { isDupEntry : JSError -> bool }.

(** The answers of the form route: the middleware's own, or the
    handler's when the middleware calls [next()]. *)
Inductive RouteResponse : Type :=
  | Rejected (outcome : MiddlewareOutcome)
  | Handled (response : FormResponse).

Module Server.

(** [row.column]: a string, or [undefined] when the row has no such cell. *)
Definition cell (row : gmap string (list N)) (column : string) : JSValue :=
  match row !! column with
  | Some s => JStr s
  | None => JUndefined
  end.

(** The accumulators of the handler: [records], [errors], [rowNumber]. *)
Record Progress : Type := {
  records : list (gmap string JSValue);
  row_errors : list ErrorEntry;
  rowNumber : nat
}.

Definition candidate (row : gmap string (list N)) : gmap string JSValue :=
  obj [ ("first_name", cell row "first_name");
        ("last_name", cell row "last_name");
        ("email", cell row "email");
        ("age", parseInt (cell row "age")) ].

(** The ['data'] callback. *)
Definition onData `{EmailValidator} (acc : Progress) (row : gmap string (list N))
  : Progress :=
  let rowNumber := S (rowNumber acc) in
  let record := candidate row in
  match Validation.validateRecord record "csv" with
  | Return validation =>
      if isValid validation then
        {| records := records acc ++ [Validation.sanitizeRecord record];
           row_errors := row_errors acc;
           rowNumber := rowNumber |}
      else
        {| records := records acc;
           row_errors :=
             row_errors acc ++ [RowInvalid rowNumber record (errors validation)];
           rowNumber := rowNumber |}
  | Throw error =>
      {| records := records acc;
         row_errors := row_errors acc ++ [RowFailed rowNumber (message error)];
         rowNumber := rowNumber |}
  end.

(** [fs.unlink(path)] *)
Definition unlink (path : string) (w : World) : result unit * World :=
  if decide (path ∈ uploads w)
  then (Return (),
        {| store := store w; uploads := uploads w ∖ {[path]};
           bulk_calls := bulk_calls w |})
  else (Throw (IOError "ENOENT: no such file or directory"), w).

(** The statement [await database.insertBulkRecords(records)]. *)
Definition callBulk `{Database} (recs : list (gmap string JSValue)) (w : World)
  : result unit * World :=
  let '(r, st) := insertBulkRecords recs (store w) in
  (_ ← r; Return (),
   {| store := st; uploads := uploads w;
      bulk_calls := bulk_calls w ++ [recs] |}).

(** The body of the [try] block, after the file check. *)
Definition processUpload `{EmailValidator} `{Database}
    (filePath : string) (up : Upload) (w : World) : result Response * World :=
  let acc :=
    foldl onData {| records := []; row_errors := []; rowNumber := 0 |} (rows up) in
  match stream_error up with
  | Some msg => (Throw (IOError msg), w)
  | None =>
      let '(inserted, w) :=
        if (0 <? length (records acc))%nat
        then callBulk (records acc) w
        else (Return (), w) in
      match inserted with
      | Throw e => (Throw e, w)
      | Return _ =>
          match unlink filePath w with
          | (Throw e, w) => (Throw e, w)
          | (Return _, w) =>
              (Return (ProcessingCompleted
                         {| totalRows := rowNumber acc;
                            validRecords := length (records acc);
                            invalidRecords := length (row_errors acc);
                            summary_errors := row_errors acc |}), w)
          end
      end
  end.

Definition handleCSVUpload `{EmailValidator} `{Database} (up : Upload) (w : World)
  : Response * World :=
  match file_path up with
  | None => (NoFileUploaded, w)
  | Some filePath =>
      match processUpload filePath up w with
      | (Return response, w) => (response, w)
      | (Throw error, w) => (ProcessingFailed (message error), w)
      end
  end.

(** The record [handleFormSubmission] builds from the request body. *)
Definition formData (body : gmap string JSValue) : gmap string JSValue :=
  obj [ ("first_name", or_else (get body "firstName") (get body "first_name"));
        ("last_name", or_else (get body "lastName") (get body "last_name"));
        ("email", get body "email");
        ("phone_number", or_else (get body "phoneNumber") (get body "phone_number"));
        ("eircode", get body "eircode") ].

Definition handleFormSubmission `{Database} `{ErrorCodes}
    (body : gmap string JSValue) (st : Store) : FormResponse * Store :=
  let formData := formData body in
  match insertRecord formData st with
  | (Return _, st) => (FormSaved formData, st)
  | (Throw error, st) =>
      if isDupEntry error then (EmailExists, st) else (FormFailed, st)
  end.

(** The route [POST /api/submit-form]: the validation middleware, then the
    handler on the request the middleware has passed on. *)
Definition submitFormRoute `{EmailValidator} `{Database} `{ErrorCodes}
    (body : gmap string JSValue) (st : Store) : RouteResponse * Store :=
  match SecurityMiddleware.validateFormInput body with
  | (Next, body) =>
      let '(response, st) := handleFormSubmission body st in
      (Handled response, st)
  | (outcome, _) => (Rejected outcome, st)
  end.

End Server.

(* ================================================================== *)
(** ** Predicates of the statements, and the inputs of the examples     *)
(* ================================================================== *)

(** The strings matching [^[A-Za-z0-9]{1,20}$]. *)
Definition matches_name_pattern (s : list N) : Prop :=
  (1 <= length s <= 20)%nat /\ Forall (fun c => isAlnum c = true) s.

(** A form body whose eircode arrives as a JSON number. *)
Definition body_numeric_eircode : gmap string JSValue :=
  obj [ ("firstName", JStr (u16 "Ann"));
        ("lastName", JStr (u16 "Lee"));
        ("email", JStr (u16 "ann@example.com"));
        ("phoneNumber", JStr (u16 "0871234567"));
        ("eircode", JNum 123456) ].

(** A stand-in for the library's email check, used where an example needs
    a concrete one: a string passes when it contains an at sign. *)
Definition sample_validator : EmailValidator :=
  {| isEmail := fun s => existsb (N.eqb 64) s |}.

Definition firstNameMessage : string :=
  "First name must contain only letters/numbers and be max 20 characters".
Definition lastNameMessage : string :=
  "Last name must contain only letters/numbers and be max 20 characters".
Definition emailMessage : string := "Invalid email format".
Definition ageMessage : string := "Age must be a number between 0 and 120".

(** The messages of the common fields, in field order. *)
Definition commonMessages : list string :=
  [firstNameMessage; lastNameMessage; emailMessage].

(** The messages a source can add, in the order of its checks. *)
Definition sourceMessages (source : string) : list string :=
  if String.eqb source "form" then
    [ "Phone number is required"; "Phone number must be exactly 10 digits";
      "Eircode is required";
      "Eircode must start with a number and be exactly 6 alphanumeric characters" ]
  else if String.eqb source "csv" then [ageMessage]
  else [].

(** The violations of the common fields, given the three verdicts. *)
Definition commonErrors (b1 b2 b3 : bool) : list string :=
  (if b1 then [] else [firstNameMessage])
  ++ (if b2 then [] else [lastNameMessage])
  ++ (if b3 then [] else [emailMessage]).

(** The age parses to an integer between 0 and 120. *)
Definition age_in_range (v : JSValue) : Prop :=
  exists z, parseInt v = JNum z /\ 0 <= z <= 120.

Ltac solve_sublist :=
  repeat first [apply sublist_nil_l | apply sublist_skip | apply sublist_cons].

(** A record that fails every common check and the age check. *)
Definition record_all_wrong : gmap string JSValue :=
  obj [ ("first_name", JStr (u16 "Mary Ann"));
        ("last_name", JStr []);
        ("email", JStr (u16 "nobody"));
        ("age", JNum 200) ].

(** A CSV row whose age column is not a number. *)
Definition row_age_abc : gmap string (list N) :=
  list_to_map [ ("first_name", u16 "Ann"); ("last_name", u16 "Lee");
                ("email", u16 "ann@example.com"); ("age", u16 "abc") ].

Definition row_ann : gmap string (list N) :=
  list_to_map [ ("first_name", u16 "Ann"); ("last_name", u16 "Lee");
                ("email", u16 "ann@example.com"); ("age", u16 "30") ].

Definition row_bob : gmap string (list N) :=
  list_to_map [ ("first_name", u16 "Bob"); ("last_name", u16 "Ray");
                ("email", u16 "bob@example.com"); ("age", u16 "41") ].

(** An upload of two valid rows. *)
Definition upload_ann_bob : Upload :=
  {| file_path := Some "uploads/batch.csv";
     rows := [row_ann; row_bob];
     stream_error := None |}.

(** An empty table, the uploaded file on disk, and a server whose second
    request fails. *)
Definition world_failing_second : World :=
  {| store := {| committed := ∅; script := [false; true] |};
     uploads := {[ "uploads/batch.csv" ]};
     bulk_calls := [] |}.

(** The statement the bulk path executes for a record. *)
Definition bulkStatement (record : gmap string JSValue) : Statement :=
  UpsertNameAge
    [ get record "first_name"; get record "last_name"; get record "email";
      if truthy (get record "age") then get record "age" else JNull ].

(** A record with age 0 and no phone number or eircode. *)
Definition record_age_zero : gmap string JSValue :=
  obj [ ("first_name", JStr (u16 "Ann")); ("last_name", JStr (u16 "Lee"));
        ("email", JStr (u16 "ann@example.com")); ("phone_number", JStr []);
        ("age", JNum 0) ].

Definition store_empty : Store := {| committed := ∅; script := [] |}.

(** An upload of one valid row. *)
Definition upload_ann : Upload :=
  {| file_path := Some "uploads/batch.csv";
     rows := [row_ann];
     stream_error := None |}.

(** The same upload, with a parser stream that emits an error. *)
Definition upload_unreadable : Upload :=
  {| file_path := Some "uploads/batch.csv";
     rows := [row_ann];
     stream_error := Some "read error" |}.

(** The uploaded file on disk, and a server whose next request fails. *)
Definition world_failing_first : World :=
  {| store := {| committed := ∅; script := [true] |};
     uploads := {[ "uploads/batch.csv" ]};
     bulk_calls := [] |}.


Definition row_bad_email : gmap string (list N) :=
  list_to_map [ ("first_name", u16 "Bob"); ("last_name", u16 "Ray");
                ("email", u16 "bob.example.com"); ("age", u16 "41") ].

Definition row_age_200 : gmap string (list N) :=
  list_to_map [ ("first_name", u16 "Cat"); ("last_name", u16 "Fox");
                ("email", u16 "cat@example.com"); ("age", u16 "200") ].

Definition world_ready : World :=
  {| store := {| committed := ∅; script := [] |};
     uploads := {[ "uploads/batch.csv" ]};
     bulk_calls := [] |}.

Definition row_markup : gmap string (list N) :=
  list_to_map [ ("first_name", u16 "<b>Bob</b>"); ("last_name", u16 "Ray");
                ("email", u16 "bob@example.com"); ("age", u16 "41") ].

Definition row_apostrophe : gmap string (list N) :=
  list_to_map [ ("first_name", u16 "Sean"); ("last_name", u16 "Obrien");
                ("email", u16 "s.o'brien@example.com"); ("age", u16 "41") ].

Definition start : Server.Progress :=
  {| Server.records := []; Server.row_errors := []; Server.rowNumber := 0 |}.

(** *** For the further properties *)

(** The value of a string of decimal digits, read left to right from [a]. *)
Definition digitsValue (a : Z) (s : list N) : Z :=
  fold_left (fun acc c => acc * 10 + (Z.of_N c - 48)) s a.

(** Some [<] of the string is followed, later on, by a [>]: the tag pattern
    of the first [replace] matches somewhere. *)
Fixpoint has_tag (s : list N) : bool :=
  match s with
  | [] => false
  | c :: r => (c =? 60)%N && existsb (N.eqb 62) r || has_tag r
  end.

(** A record with valid names and email and an age of 200. *)
Definition record_old_age : gmap string JSValue :=
  obj [ ("first_name", JStr (u16 "Ann")); ("last_name", JStr (u16 "Lee"));
        ("email", JStr (u16 "ann@example.com")); ("age", JNum 200) ].

(** The position, counted from 0, of the first request of the script that
    fails, if one does. *)
Fixpoint firstFailure (script : list bool) : option nat :=
  match script with
  | [] => None
  | true :: _ => Some 0%nat
  | false :: rest => S <$> firstFailure rest
  end.

(** The statement [insertRecord] executes for a record. *)
Definition contactStatement (data : gmap string JSValue) : Statement :=
  UpsertContact
    [ get data "first_name"; get data "last_name"; get data "email";
      or_else (get data "phone_number") JNull;
      or_else (get data "eircode") JNull;
      or_else (get data "age") JNull ].

Definition record_ann : gmap string JSValue :=
  obj [ ("first_name", JStr (u16 "Ann")); ("last_name", JStr (u16 "Lee"));
        ("email", JStr (u16 "ann@example.com")); ("age", JNum 30) ].

Definition record_bob : gmap string JSValue :=
  obj [ ("first_name", JStr (u16 "Bob")); ("last_name", JStr (u16 "Ray"));
        ("email", JStr (u16 "bob@example.com")); ("age", JNum 41) ].

(** A table with one row, which has a phone number and an eircode. *)
Definition table_with_ann : gmap JSValue Row :=
  {[ JStr (u16 "ann@example.com") :=
       {| col_first_name := JStr (u16 "Ann");
          col_last_name := JStr (u16 "Lee");
          col_phone_number := JStr (u16 "0871234567");
          col_eircode := JStr (u16 "1A2B3C");
          col_age := JNull |} ]}.

(** The pipeline accepts the row: its candidate record validates. *)
Definition rowAccepted `{EmailValidator} (row : gmap string (list N)) : bool :=
  match Validation.validateRecord (Server.candidate row) "csv" with
  | Return validation => isValid validation
  | Throw _ => false
  end.

(** The record the pipeline hands to persistence for an accepted row. *)
Definition acceptedRecord (row : gmap string (list N)) : gmap string JSValue :=
  Validation.sanitizeRecord (Server.candidate row).

(** The row ordinal an entry of the errors list reports. *)
Definition entryRow (entry : ErrorEntry) : nat :=
  match entry with
  | RowInvalid row _ _ => row
  | RowFailed row _ => row
  end.

(** The entry reports this row: its data and violations for a validation
    failure, the error's message for a throw. *)
Definition entryReports `{EmailValidator} (entry : ErrorEntry)
    (row : gmap string (list N)) : Prop :=
  match entry with
  | RowInvalid _ data errs =>
      data = Server.candidate row
      /\ Validation.validateRecord (Server.candidate row) "csv"
         = Return {| isValid := false; errors := errs |}
  | RowFailed _ error =>
      exists e, Validation.validateRecord (Server.candidate row) "csv" = Throw e
                /\ error = message e
  end.

(** An upload of a valid row, a row with a bad email and a row with age 200. *)
Definition upload_three : Upload :=
  {| file_path := Some "uploads/batch.csv";
     rows := [row_ann; row_bad_email; row_age_200];
     stream_error := None |}.

(** An upload of two rows that are both rejected. *)
Definition upload_rejected : Upload :=
  {| file_path := Some "uploads/batch.csv";
     rows := [row_bad_email; row_age_200];
     stream_error := None |}.

(** A stand-in for the driver's error codes, used where an example needs a
    concrete one: no error is a duplicate-entry error. *)
Definition sample_codes : ErrorCodes := {| isDupEntry := fun _ => false |}.

(** A form body with the five required fields. *)
Definition body_ann : gmap string JSValue :=
  obj [ ("firstName", JStr (u16 " Ann "));
        ("lastName", JStr (u16 "Lee"));
        ("email", JStr (u16 "ann@example.com"));
        ("phoneNumber", JStr (u16 "087 123 4567"));
        ("eircode", JStr (u16 "1A2B3C")) ].

(** The same body with snake-case names for the name fields. *)
Definition body_snake_case : gmap string JSValue :=
  obj [ ("first_name", JStr (u16 "Ann"));
        ("last_name", JStr (u16 "Lee"));
        ("email", JStr (u16 "ann@example.com"));
        ("phoneNumber", JStr (u16 "087 123 4567"));
        ("eircode", JStr (u16 "1A2B3C")) ].

(** A table where Ann's row has an age. *)
Definition table_ann_aged : gmap JSValue Row :=
  {[ JStr (u16 "ann@example.com") :=
       {| col_first_name := JStr (u16 "Ann");
          col_last_name := JStr (u16 "Lee");
          col_phone_number := JNull;
          col_eircode := JNull;
          col_age := JNum 30 |} ]}.

(* ================================================================== *)
(** * Properties                                                        *)
(* ================================================================== *)

(** ** Strings: [trim] *)

Section Trim.

Lemma trimStart_app (a b : list N) :
  trimStart (a ++ b) =
  if forallb isWhiteSpace a then trimStart b else trimStart a ++ b.
Proof.
  induction a as [|c a IH]; simpl; [done|].
  destruct (isWhiteSpace c); simpl; [apply IH | done].
Qed.

Lemma forallb_rev {A} (p : A -> bool) (l : list A) :
  forallb p (rev l) = forallb p l.
Proof.
  induction l as [|x l IH]; simpl; [done|].
  rewrite forallb_app, IH. simpl. rewrite andb_true_r. apply andb_comm.
Qed.

Lemma forallb_iff_Forall {A} (p : A -> bool) (l : list A) :
  forallb p l = true <-> Forall (fun x => p x = true) l.
Proof.
  induction l as [|x l IH]; simpl.
  - split; [constructor | done].
  - rewrite andb_true_iff, IH, Forall_cons. done.
Qed.

Lemma trimStart_all_ws (s : list N) :
  forallb isWhiteSpace s = true -> trimStart s = [].
Proof.
  induction s as [|c s IH]; simpl; [done|].
  destruct (isWhiteSpace c); simpl; [exact IH | discriminate].
Qed.

(** [trimEnd], read from the front of the string. *)
Lemma trimEnd_cons (c : N) (r : list N) :
  trimEnd (c :: r) =
  if forallb isWhiteSpace r
  then (if isWhiteSpace c then [] else [c])
  else c :: trimEnd r.
Proof.
  unfold trimEnd. simpl rev at 2. rewrite trimStart_app, forallb_rev.
  destruct (forallb isWhiteSpace r) eqn:Hr.
  - simpl. by destruct (isWhiteSpace c).
  - rewrite rev_app_distr. done.
Qed.

Lemma trimEnd_all_ws (s : list N) :
  forallb isWhiteSpace s = true -> trimEnd s = [].
Proof.
  intros Hs. unfold trimEnd. rewrite trimStart_all_ws; [done|].
  by rewrite forallb_rev.
Qed.

Lemma trimStart_idem (s : list N) : trimStart (trimStart s) = trimStart s.
Proof.
  induction s as [|c s IH]; simpl; [done|].
  destruct (isWhiteSpace c) eqn:Hc; [exact IH|]. simpl. by rewrite Hc.
Qed.

Lemma trimEnd_idem (s : list N) : trimEnd (trimEnd s) = trimEnd s.
Proof. unfold trimEnd. by rewrite rev_involutive, trimStart_idem. Qed.

Lemma trimStart_trimEnd (s : list N) :
  trimStart (trimEnd s) = trimEnd (trimStart s).
Proof.
  induction s as [|c s IH]; [done|].
  rewrite trimEnd_cons. simpl trimStart at 2.
  destruct (forallb isWhiteSpace s) eqn:Hs.
  - destruct (isWhiteSpace c) eqn:Hc; simpl.
    + by rewrite trimStart_all_ws, ?trimEnd_all_ws.
    + by rewrite Hc, trimEnd_cons, Hs, Hc.
  - simpl. destruct (isWhiteSpace c) eqn:Hc; [exact IH|].
    by rewrite trimEnd_cons, Hs.
Qed.

Lemma trim_idem (s : list N) : trim (trim s) = trim s.
Proof.
  unfold trim.
  by rewrite trimStart_trimEnd, trimStart_idem, trimEnd_idem.
Qed.

Lemma trimStart_Forall (P : N -> Prop) (s : list N) :
  Forall P s -> Forall P (trimStart s).
Proof.
  induction 1 as [|c s Hc Hs IH]; simpl; [constructor|].
  destruct (isWhiteSpace c); [exact IH | by constructor].
Qed.

Lemma trim_Forall (P : N -> Prop) (s : list N) :
  Forall P s -> Forall P (trim s).
Proof.
  intros Hs. unfold trim, trimEnd.
  apply Forall_rev, trimStart_Forall, Forall_rev, trimStart_Forall, Hs.
Qed.

(** A string without white space is left alone. *)
Lemma trimStart_no_ws (s : list N) :
  Forall (fun c => isWhiteSpace c = false) s -> trimStart s = s.
Proof. destruct 1 as [|c s Hc Hs]; simpl; [done|]. by rewrite Hc. Qed.

Lemma trim_no_ws (s : list N) :
  Forall (fun c => isWhiteSpace c = false) s -> trim s = s.
Proof.
  intros Hs. unfold trim, trimEnd.
  rewrite (trimStart_no_ws s Hs), trimStart_no_ws; [apply rev_involutive|].
  by apply Forall_rev.
Qed.

(** [trim] only removes white space. *)
Lemma trimStart_keeps (c : N) (s : list N) :
  isWhiteSpace c = false -> c ∈ s -> c ∈ trimStart s.
Proof.
  intros Hc. induction s as [|d s IH]; simpl; [done|].
  intros Hin. destruct (isWhiteSpace d) eqn:Hd; [|done].
  apply IH. apply elem_of_cons in Hin as [->|]; [congruence | done].
Qed.

Lemma trim_keeps (c : N) (s : list N) :
  isWhiteSpace c = false -> c ∈ s -> c ∈ trim s.
Proof.
  intros Hc Hin. unfold trim, trimEnd.
  apply list_elem_of_In, in_rev. rewrite rev_involutive.
  apply list_elem_of_In, trimStart_keeps; [done|].
  apply list_elem_of_In, in_rev. rewrite rev_involutive.
  by apply list_elem_of_In, trimStart_keeps.
Qed.

End Trim.

(** ** The sanitizer *)

Section Sanitizer.

Import Validation.

Lemma removeSpecial_clean (s : list N) :
  Forall (fun c => isSpecial c = false) (removeSpecial s).
Proof.
  unfold removeSpecial. induction s as [|c s IH]; simpl; [constructor|].
  destruct (isSpecial c) eqn:Hc; simpl; [exact IH | by constructor].
Qed.

Lemma removeSpecial_id (s : list N) :
  Forall (fun c => isSpecial c = false) s -> removeSpecial s = s.
Proof.
  unfold removeSpecial. induction 1 as [|c s Hc Hs IH]; simpl; [done|].
  by rewrite Hc, IH.
Qed.

(** Without a [<] there is no tag to remove. *)
Lemma stripTags_id (s : list N) :
  Forall (fun c => isSpecial c = false) s -> stripTags s = s.
Proof.
  unfold stripTags. induction 1 as [|c s Hc Hs IH]; simpl; [done|].
  destruct (c =? 60)%N eqn:E.
  - unfold isSpecial in Hc. rewrite E in Hc. discriminate.
  - simpl. by rewrite IH.
Qed.

(** The sanitizer's output contains none of the characters it removes. *)
Lemma sanitized_clean (s : list N) :
  Forall (fun c => isSpecial c = false) (trim (removeSpecial (stripTags s))).
Proof. apply trim_Forall, removeSpecial_clean. Qed.

Lemma sanitizeInput_fixpoint (v : JSValue) :
  sanitizeInput (sanitizeInput v) = sanitizeInput v.
Proof.
  destruct v as [| |b|z| |s]; simpl; try done.
  pose proof (sanitized_clean s) as Hclean.
  rewrite (stripTags_id _ Hclean), (removeSpecial_id _ Hclean).
  by rewrite trim_idem.
Qed.

(** C9. The field sanitizer is idempotent on strings: sanitizing an already
    sanitized string changes nothing. *)
Theorem sanitizeInput_idempotent (x : list N) :
  sanitizeInput (sanitizeInput (JStr x)) = sanitizeInput (JStr x).
Proof.
  simpl.
  pose proof (sanitized_clean x) as Hclean.
  rewrite (stripTags_id _ Hclean), (removeSpecial_id _ Hclean).
  by rewrite trim_idem.
Qed.

Lemma sanitizeRecord_lookup (record : gmap string JSValue) (k : string) :
  k <> "__proto__" ->
  get (sanitizeRecord record) k = sanitizeInput (get record k).
Proof.
  intros Hk. unfold get, sanitizeRecord.
  rewrite lookup_delete_ne by done. rewrite lookup_fmap.
  destruct (record !! k) as [v|]; simpl; [|done].
  by destruct v.
Qed.

End Sanitizer.

(** ** The field validators *)

Section FieldValidators.

Import Validation.

Lemma isAlnum_not_ws (c : N) : isAlnum c = true -> isWhiteSpace c = false.
Proof.
  unfold isAlnum, isDigit, isWhiteSpace. intros H.
  repeat (apply orb_prop in H as [H|H]);
    apply andb_prop in H as [H1 H2];
    apply N.leb_le in H1; apply N.leb_le in H2;
    repeat (apply orb_false_intro); try apply andb_false_iff;
    rewrite ?N.leb_gt, ?N.eqb_neq; lia.
Qed.

(** What the name validator computes on a string. *)
Lemma isValidName_string (s : list N) :
  isValidName (JStr s) =
  Return (forallb isAlnum (trim s)
          && (1 <=? length (trim s))%nat && (length (trim s) <=? 20)%nat).
Proof.
  unfold isValidName. simpl.
  destruct s as [|c s]; [done|].
  simpl negb. cbn [orb mbind result_bind bind].
  generalize (trim (c :: s)). intros t.
  destruct t as [|d t]; [done|].
  cbn [length Nat.eqb orb test_alnum_plus].
  destruct (20 <? S (length t))%nat eqn:Hlen.
  - apply Nat.ltb_lt in Hlen.
    replace (S (length t) <=? 20)%nat with false
      by (symmetry; apply Nat.leb_gt; lia).
    by rewrite andb_false_r.
  - apply Nat.ltb_ge in Hlen.
    replace (S (length t) <=? 20)%nat with true
      by (symmetry; apply Nat.leb_le; lia).
    by rewrite !andb_true_r.
Qed.

(** The name validator returns on every value. *)
Lemma isValidName_total (v : JSValue) : exists b, isValidName v = Return b.
Proof.
  destruct v as [| |b|z| |s]; try (by eexists).
  - unfold isValidName; simpl. destruct b; by eexists.
  - unfold isValidName; simpl. destruct (z =? 0); by eexists.
  - rewrite isValidName_string. by eexists.
Qed.

Lemma isValidName_accepts (s : list N) :
  matches_name_pattern s -> isValidName (JStr s) = Return true.
Proof.
  intros [[Hlo Hhi] Hall]. rewrite isValidName_string.
  rewrite trim_no_ws.
  - f_equal. rewrite !andb_true_iff. repeat split.
    + by apply forallb_iff_Forall.
    + by apply Nat.leb_le.
    + by apply Nat.leb_le.
  - eapply Forall_impl; [exact Hall|]. apply isAlnum_not_ws.
Qed.

Lemma isValidPhone_total (v : JSValue) : exists b, isValidPhone v = Return b.
Proof.
  unfold isValidPhone.
  destruct v as [| |b|z| |s]; simpl; try (by eexists).
  - destruct b; by eexists.
  - destruct (z =? 0); by eexists.
  - destruct s; by eexists.
Qed.

Lemma isValidAge_total (v : JSValue) : exists b, isValidAge v = Return b.
Proof. by eexists. Qed.

(** The eircode validator returns on strings and on falsy values. *)
Lemma isValidEircode_string_or_falsy (v : JSValue) :
  is_string v = true \/ truthy v = false ->
  exists b, isValidEircode v = Return b.
Proof.
  unfold isValidEircode. intros [Hs|Hf].
  - destruct v; try discriminate. destruct (truthy (JStr s)); by eexists.
  - rewrite Hf. by eexists.
Qed.


(** On anything but a string the email validator throws. *)
Lemma isValidEmail_throws `{EmailValidator} (v : JSValue) :
  is_string v = false -> exists e, isValidEmail v = Throw e.
Proof. destruct v; try discriminate; by eexists. Qed.

End FieldValidators.

(** ** C7: the name rule *)

Section NameRule.

Import Validation.

(** C7, as stated, fails: a name with white space around it is trimmed
    before the checks, so it is accepted although it contains white space,
    and although its length may exceed 20. *)
Lemma isValidName_accepts_padded_name :
  (existsb isWhiteSpace (u16 " Bob") = true
   /\ isValidName (JStr (u16 " Bob")) = Return true)
  /\ ((20 < length (u16 "Bob                    "))%nat
      /\ isValidName (JStr (u16 "Bob                    ")) = Return true).
Proof. repeat split; vm_compute; lia. Qed.

(** C7, amended.  The name validator accepts every string matching
    [^[A-Za-z0-9]{1,20}$]; it rejects every name that contains punctuation
    (a character that is neither alphanumeric nor white space), every name
    that still contains white space after trimming, and every name whose
    trimmed length is 0 or greater than 20. *)
Theorem isValidName_rule (s : list N) :
  (matches_name_pattern s -> isValidName (JStr s) = Return true)
  /\ ((exists c, c ∈ s /\ isAlnum c = false /\ isWhiteSpace c = false) ->
      isValidName (JStr s) = Return false)
  /\ ((exists c, c ∈ trim s /\ isWhiteSpace c = true) ->
      isValidName (JStr s) = Return false)
  /\ (length (trim s) = 0%nat \/ (20 < length (trim s))%nat ->
      isValidName (JStr s) = Return false).
Proof.
  split; [apply isValidName_accepts|].
  assert (Hbad : forall c, c ∈ trim s -> isAlnum c = false ->
                 isValidName (JStr s) = Return false).
  { intros c Hin Hc. rewrite isValidName_string. f_equal.
    destruct (forallb isAlnum (trim s)) eqn:Hall; [|done].
    apply forallb_iff_Forall in Hall.
    rewrite Forall_forall in Hall. specialize (Hall c Hin). congruence. }
  repeat split.
  - intros (c & Hin & Hc & Hws). apply (Hbad c); [|done].
    by apply trim_keeps.
  - intros (c & Hin & Hws). apply (Hbad c); [done|].
    destruct (isAlnum c) eqn:Hc; [|done].
    apply isAlnum_not_ws in Hc. congruence.
  - intros Hlen. rewrite isValidName_string. f_equal.
    destruct Hlen as [Hlen|Hlen].
    + rewrite Hlen. simpl. by rewrite andb_false_r.
    + replace (length (trim s) <=? 20)%nat with false
        by (symmetry; apply Nat.leb_gt; lia).
      by rewrite andb_false_r.
Qed.

Lemma isValidName_rule_witness :
  isValidName (JStr (u16 "Bob42")) = Return true
  /\ isValidName (JStr (u16 "O'Neil")) = Return false
  /\ isValidName (JStr (u16 "Mary Ann")) = Return false
  /\ isValidName (JStr (u16 "   ")) = Return false.
Proof.
  split; [|split; [|split]].
  - apply (proj1 (isValidName_rule (u16 "Bob42"))).
    split; [vm_compute; lia|].
    apply forallb_iff_Forall. reflexivity.
  - apply (proj1 (proj2 (isValidName_rule (u16 "O'Neil")))).
    exists 39%N. split; [|split; reflexivity].
    apply list_elem_of_In. vm_compute. tauto.
  - apply (proj1 (proj2 (proj2 (isValidName_rule (u16 "Mary Ann"))))).
    exists 32%N. split; [|reflexivity].
    apply list_elem_of_In. vm_compute. tauto.
  - apply (proj2 (proj2 (proj2 (isValidName_rule (u16 "   "))))).
    left. reflexivity.
Defined.

End NameRule.

(** ** C5: totality of the field validators *)

Section Totality.

Import Validation.

(** C5 fails on the code: the eircode validator calls [trim] on its
    argument after the falsy check only, so a truthy non-string value makes
    it throw instead of returning false; through the form middleware the
    throw becomes the internal-error response. *)
Theorem isValidEircode_throws_on_number :
  isValidEircode (JNum 123456) = Throw (TypeError "trim is not a function")
  /\ forall ev : EmailValidator,
       fst (SecurityMiddleware.validateFormInput body_numeric_eircode)
       = ValidationCrashed.
Proof. split; [reflexivity|]. intros ev. vm_compute. reflexivity. Qed.

End Totality.

(** ** The record validator *)

Section RecordValidator.

Import Validation.

Context `{EmailValidator}.

Lemma commonErrors_sublist (b1 b2 b3 : bool) :
  commonErrors b1 b2 b3 `sublist_of` commonMessages.
Proof. destruct b1, b2, b3; cbn; unfold commonMessages; solve_sublist. Qed.

Lemma ageMessage_not_common (b1 b2 b3 : bool) :
  ageMessage ∉ commonErrors b1 b2 b3.
Proof.
  intros Hin. apply list_elem_of_In in Hin.
  destruct b1, b2, b3; cbn in Hin; intuition discriminate.
Qed.

(** Every result of the record validator has the common violations first,
    in field order, then the violations of the source. *)
Lemma validateRecord_shape (record : gmap string JSValue) (source : string)
    (r : ValidationResult) :
  validateRecord record source = Return r ->
  exists b1 b2 b3 specific,
    isValidName (get record "first_name") = Return b1
    /\ isValidName (get record "last_name") = Return b2
    /\ isValidEmail (get record "email") = Return b3
    /\ errors r = commonErrors b1 b2 b3 ++ specific
    /\ specific `sublist_of` sourceMessages source.
Proof.
  unfold validateRecord.
  destruct (isValidName_total (get record "first_name")) as [b1 Hb1].
  destruct (isValidName_total (get record "last_name")) as [b2 Hb2].
  rewrite Hb1, Hb2.
  destruct (isValidEmail (get record "email")) as [b3|e] eqn:Hb3; [|discriminate].
  cbn [mbind result_bind bind].
  unfold sourceMessages.
  destruct (String.eqb source "form"); [|destruct (String.eqb source "csv")].
  - destruct (isValidPhone_total (get record "phone_number")) as [b4 Hb4].
    rewrite Hb4.
    destruct (truthy (get record "phone_number"));
      (destruct (truthy (get record "eircode"));
       [destruct (isValidEircode (get record "eircode")) as [b5|e];
        [destruct b5|]|]);
      cbn [mbind result_bind bind negb]; try discriminate;
      intros [= <-]; exists b1, b2, b3; cbn [errors];
      destruct b1, b2, b3, b4; eexists;
      (split; [reflexivity|]); (split; [reflexivity|]);
      (split; [reflexivity|]); (split; [cbn; reflexivity|]);
      solve_sublist.
  - destruct (isValidAge_total (get record "age")) as [b4 Hb4].
    rewrite Hb4.
    destruct (truthy (get record "age"));
      cbn [mbind result_bind bind negb];
      intros [= <-]; exists b1, b2, b3; cbn [errors];
      destruct b1, b2, b3, b4; eexists;
      (split; [reflexivity|]); (split; [reflexivity|]);
      (split; [reflexivity|]); (split; [cbn; reflexivity|]);
      solve_sublist.
  - cbn [mbind result_bind bind negb].
    intros [= <-]; exists b1, b2, b3; cbn [errors];
      destruct b1, b2, b3; eexists;
      (split; [reflexivity|]); (split; [reflexivity|]);
      (split; [reflexivity|]); (split; [cbn; reflexivity|]);
      solve_sublist.
Qed.


End RecordValidator.

(** ** C8: determinism and order of the violation list *)

Section Determinism.

Import Validation.

(** C8. Validating the same record for the same source twice gives the same
    violation list, and that list is the violations of first_name,
    last_name and email, in this order, followed by the violations of the
    source. *)
Theorem validateRecord_deterministic_order `{EmailValidator}
    (record : gmap string JSValue) (source : string)
    (r1 r2 : ValidationResult) :
  validateRecord record source = Return r1 ->
  validateRecord record source = Return r2 ->
  errors r1 = errors r2
  /\ exists common specific,
       errors r1 = common ++ specific
       /\ common `sublist_of` commonMessages
       /\ specific `sublist_of` sourceMessages source.
Proof.
  intros H1 H2. split; [congruence|].
  destruct (validateRecord_shape record source r1 H1)
    as (b1 & b2 & b3 & specific & _ & _ & _ & Herr & Hsub).
  exists (commonErrors b1 b2 b3), specific.
  split; [exact Herr|]. split; [apply commonErrors_sublist | exact Hsub].
Qed.

Lemma validateRecord_deterministic_order_witness :
  let r := {| isValid := false;
              errors := [firstNameMessage; lastNameMessage; emailMessage;
                         ageMessage] |} in
  @validateRecord sample_validator record_all_wrong "csv" = Return r
  /\ (errors r = errors r
      /\ exists common specific,
           errors r = common ++ specific
           /\ common `sublist_of` commonMessages
           /\ specific `sublist_of` sourceMessages "csv").
Proof.
  intros r. split; [reflexivity|].
  apply (@validateRecord_deterministic_order sample_validator
           record_all_wrong "csv" r r); reflexivity.
Defined.

End Determinism.

(** ** C4: the age rule of the batch source *)

Section AgeRule.

Import Validation.

Lemma isValidAge_spec (v : JSValue) (b : bool) :
  isValidAge v = Return b -> (b = true <-> age_in_range v).
Proof.
  unfold isValidAge, age_in_range. intros [= <-].
  destruct (parseInt v) as [| |c|z| |t]; simpl;
    try (split; [discriminate | intros (z' & [=] & _)]).
  rewrite andb_true_iff, !Z.leb_le. split.
  - intros [??]. by exists z.
  - intros (z' & [= <-] & ?). done.
Qed.

(** C4 fails on the code.  The age validator itself rejects what does not
    parse ([isValidAge] answers false on NaN, and on the string "abc"), but
    the record validator calls it behind the test [record.age &&], and the
    pipeline hands it the parsed age: for a row whose age column is not a
    number that is NaN, which is falsy.  The age field is present, it does
    not parse, and the record is valid, without a violation; the pipeline
    accepts the row, and what goes to persistence carries the NaN, stored
    as NULL.  The same record with the unparsed string for age is
    rejected. *)
Theorem nonnumeric_age_row_accepted :
  (Server.candidate row_age_abc !! "age" = Some JNaN
   /\ isValidAge JNaN = Return false
   /\ isValidAge (JStr (u16 "abc")) = Return false)
  /\ @validateRecord sample_validator (Server.candidate row_age_abc) "csv"
     = Return {| isValid := true; errors := [] |}
  /\ @Server.onData sample_validator start row_age_abc
     = {| Server.records := [sanitizeRecord (Server.candidate row_age_abc)];
          Server.row_errors := [];
          Server.rowNumber := 1 |}
  /\ Database2.bulkParams (sanitizeRecord (Server.candidate row_age_abc))
     = [JStr (u16 "Ann"); JStr (u16 "Lee"); JStr (u16 "ann@example.com"); JNull]
  /\ @validateRecord sample_validator
       (<["age" := JStr (u16 "abc")]> (Server.candidate row_age_abc)) "csv"
     = Return {| isValid := false; errors := [ageMessage] |}.
Proof.
  split; [repeat split; vm_compute; reflexivity|].
  repeat split; vm_compute; reflexivity.
Qed.

End AgeRule.

(** ** The store: bulk persistence *)

Section BulkPersistence.

Lemma request_committed (st : Store) :
  committed (snd (MySQL.request st)) = committed st.
Proof. unfold MySQL.request. by destruct (script st). Qed.

(** Executing on the transaction's connection leaves the table alone. *)
Lemma connection_execute_committed (conn : Connection) (stmt : Statement)
    (st : Store) :
  committed (snd (MySQL.connection_execute conn stmt st)) = committed st.
Proof.
  unfold MySQL.connection_execute.
  pose proof (request_committed st) as Hreq.
  destruct (MySQL.request st) as [fails st1]. simpl in Hreq.
  by destruct fails.
Qed.

Lemma Database2_insertEach_committed (records : list (gmap string JSValue)) :
  forall (conn : Connection) (st : Store),
    committed (snd (Database2.insertEach conn records st)) = committed st.
Proof.
  induction records as [|record rest IH]; intros conn st; simpl; [done|].
  pose proof (connection_execute_committed conn
                (UpsertNameAge (Database2.bulkParams record)) st) as Hex.
  destruct (MySQL.connection_execute conn _ st) as [[conn'|e] st1];
    simpl in Hex; [|done].
  by rewrite IH.
Qed.

(** The loop of the second definition collects one statement per record. *)
Lemma Database2_insertEach_pending (records : list (gmap string JSValue)) :
  forall (conn conn' : Connection) (st st' : Store),
    Database2.insertEach conn records st = (Return conn', st') ->
    pending conn' =
    pending conn
    ++ List.map (fun record => UpsertNameAge (Database2.bulkParams record)) records.
Proof.
  induction records as [|record rest IH]; intros conn conn' st st'; simpl.
  - intros [= <- <-]. by rewrite app_nil_r.
  - unfold MySQL.connection_execute at 1.
    destruct (MySQL.request st) as [[] st1]; [discriminate|].
    intros Hrest. apply IH in Hrest. rewrite Hrest. simpl.
    by rewrite <- app_assoc.
Qed.

(** The second definition of [insertBulkRecords] is all-or-nothing: when it
    throws, the table is what it was before the call. *)
Lemma Database2_bulk_all_or_nothing (records : list (gmap string JSValue))
    (st st' : Store) (e : JSError) :
  Database2.insertBulkRecords records st = (Throw e, st') ->
  committed st' = committed st.
Proof.
  unfold Database2.insertBulkRecords.
  pose proof (Database2_insertEach_committed records MySQL.beginTransaction st)
    as Hloop.
  destruct (Database2.insertEach _ records st) as [[conn|e1] st1];
    simpl in Hloop.
  - unfold MySQL.commit.
    pose proof (request_committed st1) as Hreq.
    destruct (MySQL.request st1) as [[] st2]; simpl in Hreq.
    + intros [= <- <-]. congruence.
    + discriminate.
  - intros [= <- <-]. done.
Qed.

(** When it returns, every record's statement has taken effect, in order. *)
Lemma Database2_bulk_commits (records : list (gmap string JSValue))
    (st st' : Store) (r : BulkResult) :
  Database2.insertBulkRecords records st = (Return r, st') ->
  committed st' =
  foldl run_statement (committed st)
    (List.map (fun record => UpsertNameAge (Database2.bulkParams record)) records).
Proof.
  unfold Database2.insertBulkRecords.
  pose proof (Database2_insertEach_committed records MySQL.beginTransaction st)
    as Hloop.
  destruct (Database2.insertEach _ records st) as [[conn|e1] st1] eqn:Heach;
    simpl in Hloop; [|discriminate].
  apply Database2_insertEach_pending in Heach. simpl in Heach.
  unfold MySQL.commit.
  pose proof (request_committed st1) as Hreq.
  destruct (MySQL.request st1) as [[] st2]; simpl in Hreq; [discriminate|].
  intros [= <- <-]. simpl. by rewrite Heach, Hreq, Hloop.
Qed.

End BulkPersistence.


(** ** C1: a store failure during bulk persistence *)

Section BulkFailure.

(** C1 fails on the first definition of [insertBulkRecords]: its loop
    inserts through [insertRecord], that is through the pool and outside the
    transaction it has opened, so the rollback has nothing to undo.  With
    two accepted rows and a store that fails on the second insert, the
    failure is reported to the caller and the first row stays in the
    table. *)
Theorem Database1_bulk_partial_commit :
  let '(response, w) :=
    @Server.handleCSVUpload sample_validator database1
      upload_ann_bob world_failing_second in
  response = ProcessingFailed "query failed"
  /\ committed (store world_failing_second) !! JStr (u16 "ann@example.com") = None
  /\ committed (store w) !! JStr (u16 "ann@example.com")
     = Some {| col_first_name := JStr (u16 "Ann");
               col_last_name := JStr (u16 "Lee");
               col_phone_number := JNull;
               col_eircode := JNull;
               col_age := JNum 30 |}.
Proof. vm_compute. repeat split; reflexivity. Qed.

(** On the same input the second definition leaves the table empty. *)
Lemma Database2_bulk_example :
  let '(response, w) :=
    @Server.handleCSVUpload sample_validator database2
      upload_ann_bob world_failing_second in
  response = ProcessingFailed "query failed"
  /\ committed (store w) = ∅.
Proof. vm_compute. repeat split; reflexivity. Qed.

End BulkFailure.

(** ** C10: falsy optional fields are stored as NULL *)

Section NullCoercion.

Lemma bulkStatement_eq (record : gmap string JSValue) :
  UpsertNameAge (Database2.bulkParams record) = bulkStatement record.
Proof. reflexivity. Qed.

(** The two definitions of the module have the same [insertRecord]. *)
Lemma insertRecord_same : Database2.insertRecord = Database1.insertRecord.
Proof. reflexivity. Qed.

(** C10. After a successful [insertRecord], the row stored under the
    record's email has NULL in every optional column whose field was falsy:
    an age of 0 is stored as NULL, and so is an empty phone number or
    eircode.  The bulk path executes, for each record, a statement whose age
    parameter is NULL when the record's age is falsy. *)
Theorem insertRecord_coerces_falsy_to_null :
  (forall (data : gmap string JSValue) (st st' : Store),
      Database1.insertRecord data st = (Return (), st') ->
      exists row,
        committed st' !! get data "email" = Some row
        /\ (truthy (get data "phone_number") = false -> col_phone_number row = JNull)
        /\ (truthy (get data "eircode") = false -> col_eircode row = JNull)
        /\ (truthy (get data "age") = false -> col_age row = JNull)
        /\ (get data "age" = JNum 0 -> col_age row = JNull)
        /\ (get data "phone_number" = JStr [] -> col_phone_number row = JNull)
        /\ (get data "eircode" = JStr [] -> col_eircode row = JNull))
  /\ (forall (records : list (gmap string JSValue)) (st st' : Store)
             (r : BulkResult),
         Database2.insertBulkRecords records st = (Return r, st') ->
         committed st' =
         foldl run_statement (committed st) (List.map bulkStatement records)).
Proof.
  split.
  - intros data st st'. unfold Database1.insertRecord, Database1.execute,
      MySQL.pool_execute.
    destruct (MySQL.request st) as [[] st1]; [discriminate|].
    intros [= <-]. cbn [committed run_statement].
    eexists. split; [apply lookup_insert_eq|]. cbn.
    unfold or_else.
    repeat split; intros Hf; rewrite Hf; reflexivity.
  - intros records st st' r Hbulk.
    by apply Database2_bulk_commits in Hbulk.
Qed.

Lemma insertRecord_coerces_falsy_to_null_witness :
  (exists row,
      committed (snd (Database1.insertRecord record_age_zero store_empty))
        !! get record_age_zero "email" = Some row
      /\ col_age row = JNull /\ col_phone_number row = JNull)
  /\ committed (snd (Database2.insertBulkRecords [record_age_zero] store_empty))
     = foldl run_statement ∅ [bulkStatement record_age_zero].
Proof.
  split.
  - destruct (proj1 insertRecord_coerces_falsy_to_null
                record_age_zero store_empty
                (snd (Database1.insertRecord record_age_zero store_empty))
                eq_refl)
      as (row & Hrow & _ & _ & _ & Hage & Hphone & _).
    exists row. split; [exact Hrow|].
    split; [apply Hage | apply Hphone]; reflexivity.
  - apply (proj2 insertRecord_coerces_falsy_to_null
             [record_age_zero] store_empty _ {| success := true; count := 1 |}).
    reflexivity.
Defined.

End NullCoercion.

(** ** C3: the uploaded file *)

Section UploadedFile.

Context `{EmailValidator} `{Database}.

(** Whenever the handler answers with a failure, no file has been deleted. *)
Lemma handleCSVUpload_failure_keeps_files (up : Upload) (w : World)
    (msg : string) :
  fst (Server.handleCSVUpload up w) = ProcessingFailed msg ->
  uploads (snd (Server.handleCSVUpload up w)) = uploads w.
Proof.
  unfold Server.handleCSVUpload, Server.processUpload.
  destruct (file_path up) as [path|]; [|done].
  destruct (stream_error up); [done|].
  set (acc := foldl Server.onData _ _).
  destruct (0 <? length (Server.records acc))%nat.
  - unfold Server.callBulk.
    destruct (insertBulkRecords _ _) as [[r|e] st]; cbn; [|done].
    unfold Server.unlink; cbn. by case_decide.
  - unfold Server.unlink; cbn. by case_decide.
Qed.

(** When the handler answers with the summary, the file is gone. *)
Lemma handleCSVUpload_success_deletes_file (up : Upload) (w : World)
    (path : string) (summary : Summary) :
  file_path up = Some path ->
  fst (Server.handleCSVUpload up w) = ProcessingCompleted summary ->
  uploads (snd (Server.handleCSVUpload up w)) = uploads w ∖ {[path]}.
Proof.
  unfold Server.handleCSVUpload, Server.processUpload. intros ->.
  destruct (stream_error up); [done|].
  set (acc := foldl Server.onData _ _).
  destruct (0 <? length (Server.records acc))%nat.
  - unfold Server.callBulk.
    destruct (insertBulkRecords _ _) as [[r|e] st]; cbn; [|done].
    unfold Server.unlink; cbn. by case_decide.
  - unfold Server.unlink; cbn. by case_decide.
Qed.

(** A throw of the bulk insert reaches the caller as the failure response,
    with the error's message. *)
Lemma bulk_failure_surfaces (up : Upload) (w : World) (path : string)
    (e : JSError) :
  file_path up = Some path ->
  stream_error up = None ->
  let acc := foldl Server.onData
               {| Server.records := []; Server.row_errors := [];
                  Server.rowNumber := 0 |} (rows up) in
  Server.records acc <> [] ->
  fst (insertBulkRecords (Server.records acc) (store w)) = Throw e ->
  fst (Server.handleCSVUpload up w) = ProcessingFailed (message e).
Proof.
  intros Hpath Hstream acc Hne Hthrow.
  unfold Server.handleCSVUpload, Server.processUpload.
  rewrite Hpath, Hstream. fold acc.
  destruct (Server.records acc) as [|r rs] eqn:Hrecs; [done|].
  cbn [length Nat.ltb Nat.leb]. unfold Server.callBulk.
  destruct (insertBulkRecords (r :: rs) (store w)) as [res st].
  cbn [fst] in Hthrow. subst res. reflexivity.
Qed.

End UploadedFile.

Section UploadedFileLeak.

(** C3 fails on the code: the file is deleted by a statement of the [try]
    block that follows the bulk insert, and the [catch] block does not
    delete it.  When the store fails, or when the parser stream emits an
    error, the request completes with the failure response and the file is
    still in the upload directory. *)
Theorem uploaded_file_kept_on_failure :
  (fst (@Server.handleCSVUpload sample_validator database2
          upload_ann world_failing_first)
   = ProcessingFailed "query failed"
   /\ "uploads/batch.csv"
      ∈ uploads (snd (@Server.handleCSVUpload sample_validator database2
                        upload_ann world_failing_first)))
  /\ (fst (@Server.handleCSVUpload sample_validator database2
             upload_unreadable world_failing_first)
      = ProcessingFailed "read error"
      /\ "uploads/batch.csv"
         ∈ uploads (snd (@Server.handleCSVUpload sample_validator database2
                           upload_unreadable world_failing_first))).
Proof.
  split; (split; [vm_compute; reflexivity|]).
  - erewrite handleCSVUpload_failure_keeps_files by (vm_compute; reflexivity).
    unfold world_failing_first; cbn [uploads]. set_solver.
  - erewrite handleCSVUpload_failure_keeps_files by (vm_compute; reflexivity).
    unfold world_failing_first; cbn [uploads]. set_solver.
Qed.

End UploadedFileLeak.

(** ** The batch pipeline, row by row *)

Section Pipeline.

Import Validation.

Context `{EmailValidator}.











End Pipeline.

(** ** C6: a batch of three rows *)

Section ThreeRows.

Import Validation.




End ThreeRows.

(** ** C2: sanitization and validation order *)

Section SanitizeOrder.

Import Validation.

(** C2 fails on the batch path: the handler validates the candidate record
    as read from the row, and sanitizes it only afterwards, when it has been
    accepted.  A row whose first name carries markup is rejected on the
    unsanitized value, although its sanitized record is valid; and for a
    row whose email contains an apostrophe the record handed to persistence
    carries an email that differs from the one that was validated. *)
Theorem batch_validates_before_sanitizing :
  (@Server.onData sample_validator start row_markup
   = {| Server.records := [];
        Server.row_errors :=
          [RowInvalid 1 (Server.candidate row_markup) [firstNameMessage]];
        Server.rowNumber := 1 |}
   /\ @validateRecord sample_validator
        (sanitizeRecord (Server.candidate row_markup)) "csv"
      = Return {| isValid := true; errors := [] |})
  /\ (exists accepted,
        Server.records (@Server.onData sample_validator start row_apostrophe)
        = [accepted]
        /\ get (Server.candidate row_apostrophe) "email"
           = JStr (u16 "s.o'brien@example.com")
        /\ get accepted "email" = JStr (u16 "s.obrien@example.com")).
Proof.
  split; [split; vm_compute; reflexivity|].
  eexists. split; [vm_compute; reflexivity|].
  split; vm_compute; reflexivity.
Qed.

(** On the form path the record that is validated is built from the
    sanitized body: each of its string fields is a fixed point of the
    sanitizer. *)
Lemma form_validates_sanitized (body : gmap string JSValue) (k : string)
    (s : list N) :
  get (SecurityMiddleware.formData (sanitizeRecord body)) k = JStr s ->
  sanitizeInput (JStr s) = JStr s.
Proof.
  unfold get at 1. unfold SecurityMiddleware.formData, obj.
  cbn [list_to_map foldr fst snd uncurry curry].
  unfold or_else. rewrite !sanitizeRecord_lookup by discriminate.
  assert (Hfix : forall v, sanitizeInput v = JStr s ->
                 sanitizeInput (JStr s) = JStr s).
  { intros v <-. apply sanitizeInput_fixpoint. }
  repeat (rewrite lookup_insert; case_decide; cbn [default];
          [repeat match goal with
                  | |- context [if ?c then _ else _] => destruct c
                  end; apply Hfix|]).
  rewrite lookup_empty. discriminate.
Qed.

End SanitizeOrder.

(** ** Numbers: [parseInt] of a decimal rendering *)

Section DecimalRoundTrip.

Lemma isDigit_cases (c : N) :
  isDigit c = true ->
  (c = 48 \/ c = 49 \/ c = 50 \/ c = 51 \/ c = 52 \/ c = 53 \/ c = 54
   \/ c = 55 \/ c = 56 \/ c = 57)%N.
Proof.
  unfold isDigit. rewrite andb_true_iff, !N.leb_le. lia.
Qed.

Lemma digitValue_decimal (c : N) :
  isDigit c = true -> digitValue 10 c = Some (Z.of_N c - 48).
Proof.
  intros Hc. unfold digitValue. rewrite Hc.
  apply isDigit_cases in Hc.
  repeat (destruct Hc as [->|Hc]; [reflexivity|]). by subst c.
Qed.

Lemma parseDigits_decimal (s : list N) :
  Forall (fun c => isDigit c = true) s ->
  forall a, parseDigits 10 (Some a) s = Some (digitsValue a s).
Proof.
  induction 1 as [|c s Hc Hs IH]; intros a; simpl; [done|].
  rewrite (digitValue_decimal c Hc). cbn [default]. apply IH.
Qed.

(** [parseInt] on a non-empty string of decimal digits. *)
Lemma parseInt_digits (c : N) (r : list N) :
  Forall (fun c => isDigit c = true) (c :: r) ->
  parseInt (JStr (c :: r)) = JNum (digitsValue 0 (c :: r)).
Proof.
  intros Hall. pose proof Hall as Hall'.
  apply Forall_cons in Hall' as [Hc Hr].
  assert (Hparse : parseDigits 10 None (c :: r) = Some (digitsValue 0 (c :: r))).
  { simpl. rewrite (digitValue_decimal c Hc). cbn [default].
    by apply parseDigits_decimal. }
  assert (Hws : isWhiteSpace c = false).
  { apply isDigit_cases in Hc.
    repeat (destruct Hc as [->|Hc]; [reflexivity|]). by subst c. }
  unfold parseInt. cbn [ToString trimStart]. rewrite Hws.
  pose proof Hc as Hc'. apply isDigit_cases in Hc'.
  destruct Hc' as [->|Hc'].
  - (* a leading zero: the next character is a digit, not an x *)
    destruct r as [|c2 r2].
    + reflexivity.
    + apply Forall_cons in Hr as [Hc2 _]. pose proof Hc2 as Hc2'.
      apply isDigit_cases in Hc2'.
      repeat (destruct Hc2' as [->|Hc2'];
              [cbv zeta iota beta; rewrite Hparse; f_equal; lia|]).
      subst c2. cbv zeta iota beta. rewrite Hparse. f_equal; lia.
  - repeat (destruct Hc' as [->|Hc'];
            [cbv zeta iota beta; rewrite Hparse; f_equal; lia|]).
    subst c. cbv zeta iota beta. rewrite Hparse. f_equal; lia.
Qed.

(** The same behind a minus sign. *)
Lemma parseInt_minus_digits (c : N) (r : list N) :
  Forall (fun c => isDigit c = true) (c :: r) ->
  parseInt (JStr (45%N :: c :: r)) = JNum (- digitsValue 0 (c :: r)).
Proof.
  intros Hall. pose proof Hall as Hall'.
  apply Forall_cons in Hall' as [Hc Hr].
  assert (Hparse : parseDigits 10 None (c :: r) = Some (digitsValue 0 (c :: r))).
  { simpl. rewrite (digitValue_decimal c Hc). cbn [default].
    by apply parseDigits_decimal. }
  unfold parseInt. cbn [ToString trimStart].
  change (isWhiteSpace 45) with false. cbv iota.
  pose proof Hc as Hc'. apply isDigit_cases in Hc'.
  destruct Hc' as [->|Hc'].
  - destruct r as [|c2 r2].
    + reflexivity.
    + apply Forall_cons in Hr as [Hc2 _]. pose proof Hc2 as Hc2'.
      apply isDigit_cases in Hc2'.
      repeat (destruct Hc2' as [->|Hc2'];
              [cbv zeta iota beta; rewrite Hparse; f_equal; lia|]).
      subst c2. cbv zeta iota beta. rewrite Hparse. f_equal; lia.
  - repeat (destruct Hc' as [->|Hc'];
            [cbv zeta iota beta; rewrite Hparse; f_equal; lia|]).
    subst c. cbv zeta iota beta. rewrite Hparse. f_equal; lia.
Qed.

Lemma uint_digits (d : Decimal.uint) :
  Forall (fun c => isDigit c = true) (u16 (NilEmpty.string_of_uint d)).
Proof. induction d; simpl; constructor; done. Qed.

Lemma digitsValue_of_uint_acc (d : Decimal.uint) :
  forall p : positive,
    digitsValue (Z.pos p) (u16 (NilEmpty.string_of_uint d))
    = Z.pos (Pos.of_uint_acc d p).
Proof.
  unfold digitsValue.
  induction d; intros p; simpl; [done|..];
    rewrite <- IHd; f_equal; lia.
Qed.

Lemma digitsValue_of_uint (d : Decimal.uint) :
  digitsValue 0 (u16 (NilEmpty.string_of_uint d)) = Z.of_N (Pos.of_uint d).
Proof.
  induction d; simpl; [done|exact IHd|..];
    apply (digitsValue_of_uint_acc d).
Qed.

Lemma decimal_pos (p : positive) :
  exists c r,
    u16 (NilEmpty.string_of_uint (Pos.to_uint p)) = c :: r
    /\ decimal (Z.pos p) = c :: r
    /\ decimal (Z.neg p) = 45%N :: c :: r.
Proof.
  unfold decimal. cbn [Z.to_int NilZero.string_of_int].
  pose proof (DecimalPos.Unsigned.to_uint_nonnil p) as Hnn.
  unfold NilZero.string_of_uint.
  destruct (Pos.to_uint p) eqn:E; [done|..]; simpl; eauto.
Qed.

(** Parsing the decimal rendering of an integer gives the integer back. *)
Lemma parseInt_decimal (z : Z) : parseInt (JNum z) = JNum z.
Proof.
  destruct z as [|p|p]; [reflexivity|..].
  - destruct (decimal_pos p) as (c & r & Hd & Hpos & _).
    change (parseInt (JNum (Z.pos p))) with (parseInt (JStr (decimal (Z.pos p)))).
    rewrite Hpos, parseInt_digits, <- Hd, digitsValue_of_uint.
    + by rewrite DecimalPos.Unsigned.of_to.
    + rewrite <- Hd. apply uint_digits.
  - destruct (decimal_pos p) as (c & r & Hd & _ & Hneg).
    change (parseInt (JNum (Z.neg p))) with (parseInt (JStr (decimal (Z.neg p)))).
    rewrite Hneg, parseInt_minus_digits, <- Hd, digitsValue_of_uint.
    + by rewrite DecimalPos.Unsigned.of_to.
    + rewrite <- Hd. apply uint_digits.
Qed.

End DecimalRoundTrip.

(** ** The field validators and the sanitizer, beyond the name rule *)

Section ValidatorFacts.

Import Validation.

Lemma forallb_filter_same {A} (p : A -> bool) (l : list A) :
  forallb p (List.filter p l) = true.
Proof.
  induction l as [|x l IH]; simpl; [done|].
  destruct (p x) eqn:Hx; simpl; [by rewrite Hx|done].
Qed.

(** X1. On a string the phone validator answers true exactly when the
    string holds ten decimal digits, whatever else it holds. *)
Theorem isValidPhone_counts_digits (s : list N) :
  isValidPhone (JStr s)
  = Return (length (List.filter isDigit s) =? 10)%nat.
Proof.
  unfold isValidPhone. destruct s as [|c s]; [reflexivity|].
  cbn [truthy negb toString_method ToString mbind result_bind bind].
  unfold test_ten_digits. by rewrite forallb_filter_same, andb_true_r.
Qed.

(** X2. For an integer age in the safe range, the age validator answers
    true exactly when the age lies between 0 and 120. *)
Theorem isValidAge_integer (z : Z) :
  - 2 ^ 53 < z < 2 ^ 53 ->
  isValidAge (JNum z) = Return ((0 <=? z) && (z <=? 120)).
Proof.
  intros _. unfold isValidAge. by rewrite parseInt_decimal.
Qed.

Lemma isValidAge_integer_witness :
  isValidAge (JNum 121) = Return ((0 <=? 121) && (121 <=? 120)).
Proof. apply (isValidAge_integer 121). lia. Defined.

Lemma isValidEircode_string (s : list N) :
  isValidEircode (JStr s) = Return (test_eircode (trim s)).
Proof. unfold isValidEircode. by destruct s. Qed.

Lemma isAlnum_not_special (c : N) : isAlnum c = true -> isSpecial c = false.
Proof.
  unfold isAlnum, isDigit, isSpecial. intros H.
  repeat (apply orb_prop in H as [H|H]);
    apply andb_prop in H as [H1 H2];
    apply N.leb_le in H1; apply N.leb_le in H2;
    repeat (apply orb_false_intro); rewrite ?N.eqb_neq; lia.
Qed.

Lemma isWhiteSpace_not_special (c : N) :
  isWhiteSpace c = true -> isSpecial c = false.
Proof.
  intros Hws. destruct (isSpecial c) eqn:Hsp; [|done].
  unfold isSpecial in Hsp.
  repeat (apply orb_prop in Hsp as [Hsp|Hsp]);
    apply N.eqb_eq in Hsp; subst c; discriminate.
Qed.

(** What holds of the trimmed string and of white space holds of the
    whole string. *)
Lemma Forall_from_trim (P : N -> Prop) (s : list N) :
  Forall P (trim s) ->
  (forall c, isWhiteSpace c = true -> P c) ->
  Forall P s.
Proof.
  intros Htrim Hws. apply Forall_forall. intros c Hin.
  destruct (isWhiteSpace c) eqn:Hc; [by apply Hws|].
  rewrite Forall_forall in Htrim. apply Htrim. by apply trim_keeps.
Qed.

(** A string whose trimmed form is alphanumeric is only trimmed by the
    sanitizer. *)
Lemma sanitizeInput_alnum (s : list N) :
  forallb isAlnum (trim s) = true ->
  sanitizeInput (JStr s) = JStr (trim s).
Proof.
  intros Hall. apply forallb_iff_Forall in Hall.
  assert (Hclean : Forall (fun c => isSpecial c = false) s).
  { apply Forall_from_trim; [|apply isWhiteSpace_not_special].
    eapply Forall_impl; [exact Hall|]. apply isAlnum_not_special. }
  simpl. by rewrite (stripTags_id s Hclean), (removeSpecial_id s Hclean).
Qed.

(** X3. A name the name validator accepts is changed by the sanitizer only
    by trimming, and the sanitized name is accepted again. *)
Theorem valid_name_survives_sanitizer (s : list N) :
  isValidName (JStr s) = Return true ->
  sanitizeInput (JStr s) = JStr (trim s)
  /\ isValidName (sanitizeInput (JStr s)) = Return true.
Proof.
  rewrite isValidName_string. intros [= Hok].
  apply andb_prop in Hok as [Hok Hhi]. apply andb_prop in Hok as [Hall Hlo].
  rewrite (sanitizeInput_alnum s Hall). split; [done|].
  rewrite isValidName_string, trim_idem. f_equal.
  apply andb_true_intro; split; [apply andb_true_intro; split|]; assumption.
Qed.

Lemma valid_name_survives_sanitizer_witness :
  sanitizeInput (JStr (u16 "  Bob42 ")) = JStr (trim (u16 "  Bob42 "))
  /\ isValidName (sanitizeInput (JStr (u16 "  Bob42 "))) = Return true.
Proof. apply (valid_name_survives_sanitizer (u16 "  Bob42 ")). reflexivity. Defined.

Lemma test_eircode_alnum (t : list N) :
  test_eircode t = true -> forallb isAlnum t = true.
Proof.
  destruct t as [|c r]; [discriminate|]. simpl.
  intros H. apply andb_prop in H as [H Hr]. apply andb_prop in H as [Hc _].
  rewrite Hr, andb_true_r. unfold isAlnum. by rewrite Hc.
Qed.

(** X4. An eircode the eircode validator accepts is changed by the
    sanitizer only by trimming, and the sanitized eircode is accepted
    again. *)
Theorem valid_eircode_survives_sanitizer (s : list N) :
  isValidEircode (JStr s) = Return true ->
  sanitizeInput (JStr s) = JStr (trim s)
  /\ isValidEircode (sanitizeInput (JStr s)) = Return true.
Proof.
  rewrite isValidEircode_string. intros [= Hok].
  rewrite (sanitizeInput_alnum s (test_eircode_alnum _ Hok)). split; [done|].
  by rewrite isValidEircode_string, trim_idem, Hok.
Qed.

Lemma valid_eircode_survives_sanitizer_witness :
  sanitizeInput (JStr (u16 " 1A2B3C ")) = JStr (trim (u16 " 1A2B3C "))
  /\ isValidEircode (sanitizeInput (JStr (u16 " 1A2B3C "))) = Return true.
Proof.
  apply (valid_eircode_survives_sanitizer (u16 " 1A2B3C ")). reflexivity.
Defined.

End ValidatorFacts.

(** ** The sanitizer: what its output never contains *)

Section SanitizerOutput.

Import Validation.

Lemma stripTags_from_no_gt (s : list N) :
  forall inTag : bool,
    existsb (N.eqb 62) s = false ->
    existsb (N.eqb 62) (stripTags_from inTag s) = false.
Proof.
  induction s as [|c r IH]; intros inTag; cbn [existsb stripTags_from];
    [by destruct inTag|].
  intros H. apply orb_false_elim in H as [Hc Hr].
  destruct inTag.
  - rewrite N.eqb_sym, Hc. by apply IH.
  - destruct ((c =? 60)%N && existsb (N.eqb 62) r); [by apply IH|].
    cbn [existsb]. rewrite Hc. by apply IH.
Qed.

Lemma stripTags_from_no_tag (s : list N) :
  forall inTag : bool, has_tag (stripTags_from inTag s) = false.
Proof.
  induction s as [|c r IH]; intros inTag; cbn [stripTags_from];
    [by destruct inTag|].
  destruct inTag.
  - destruct (c =? 62)%N; apply IH.
  - destruct ((c =? 60)%N && existsb (N.eqb 62) r) eqn:Hopen; [apply IH|].
    cbn [has_tag]. rewrite IH, orb_false_r.
    apply andb_false_iff in Hopen as [Hc|Hr]; [by rewrite Hc|].
    by rewrite (stripTags_from_no_gt r false Hr), andb_false_r.
Qed.

(** X5. After the first [replace] no tag is left: no [<] of the result is
    followed by a [>]. *)
Theorem stripTags_no_tag_left (s : list N) : has_tag (stripTags s) = false.
Proof. apply stripTags_from_no_tag. Qed.

(** X6. The sanitizer maps a string to a string that holds none of the
    characters less-than, greater-than, double quote, single quote and
    ampersand, and that has no white space at either end. *)
Theorem sanitizeInput_output_safe (x : list N) :
  exists y,
    sanitizeInput (JStr x) = JStr y
    /\ Forall (fun c => isSpecial c = false) y
    /\ trimStart y = y /\ trimEnd y = y.
Proof.
  exists (trim (removeSpecial (stripTags x))).
  split; [reflexivity|]. split; [apply sanitized_clean|].
  set (t := removeSpecial (stripTags x)).
  split.
  - unfold trim. by rewrite <- trimStart_trimEnd, trimStart_idem.
  - unfold trim. by rewrite trimEnd_idem.
Qed.

(** X7. Sanitizing a record twice gives what sanitizing it once gives. *)
Theorem sanitizeRecord_idempotent (record : gmap string JSValue) :
  sanitizeRecord (sanitizeRecord record) = sanitizeRecord record.
Proof.
  apply map_eq. intros k. unfold sanitizeRecord.
  destruct (decide (k = "__proto__")) as [->|Hk].
  - by rewrite !lookup_delete_eq.
  - rewrite !lookup_delete_ne by done. rewrite !lookup_fmap.
    rewrite lookup_delete_ne by done. rewrite lookup_fmap.
    destruct (record !! k) as [v|]; [|done].
    cbn [fmap option_fmap option_map]. f_equal.
    destruct v as [| |b|z| |s]; try reflexivity.
    change (is_string (JStr s)) with true. cbv iota.
    change (is_string (sanitizeInput (JStr s))) with true. cbv iota.
    apply sanitizeInput_fixpoint.
Qed.

(** X8. The sanitized record has the fields of the record, except for a
    field named [__proto__], which it never has; the values that are not
    strings are the record's own, and every string value holds none of the
    characters the sanitizer removes. *)
Theorem sanitizeRecord_keeps_shape (record : gmap string JSValue) :
  dom (sanitizeRecord record) = dom record ∖ {[ "__proto__" ]}
  /\ (forall k v,
        k <> "__proto__" ->
        record !! k = Some v -> is_string v = false ->
        sanitizeRecord record !! k = Some v)
  /\ (forall k y,
        sanitizeRecord record !! k = Some (JStr y) ->
        Forall (fun c => isSpecial c = false) y).
Proof.
  split; [|split].
  - unfold sanitizeRecord. by rewrite dom_delete_L, dom_fmap_L.
  - intros k v Hne Hk Hv. unfold sanitizeRecord.
    rewrite lookup_delete_ne by done. rewrite lookup_fmap, Hk. cbn.
    by rewrite Hv.
  - intros k y. unfold sanitizeRecord.
    destruct (decide (k = "__proto__")) as [->|Hne].
    + by rewrite lookup_delete_eq.
    + rewrite lookup_delete_ne by done. rewrite lookup_fmap.
      destruct (record !! k) as [v|]; [|discriminate].
      destruct v as [| |b|z| |s]; try discriminate.
      cbn. intros [= <-]. apply sanitized_clean.
Qed.

Lemma sanitizeRecord_keeps_shape_witness :
  sanitizeRecord
    (obj [("age", JNum 30); ("__proto__", JStr (u16 "x"));
          ("first_name", JStr (u16 "<b>Bob</b>"))])
    !! "age" = Some (JNum 30)
  /\ Forall (fun c => isSpecial c = false) (u16 "Bob").
Proof.
  split.
  - apply (proj1 (proj2 (sanitizeRecord_keeps_shape
             (obj [("age", JNum 30); ("__proto__", JStr (u16 "x"));
                   ("first_name", JStr (u16 "<b>Bob</b>"))]))));
      [discriminate | reflexivity | reflexivity].
  - apply (proj2 (proj2 (sanitizeRecord_keeps_shape
             (obj [("age", JNum 30); ("__proto__", JStr (u16 "x"));
                   ("first_name", JStr (u16 "<b>Bob</b>"))])))
             "first_name").
    reflexivity.
Defined.

End SanitizerOutput.

(** ** The record validator: when a record is valid *)

Section RecordVerdict.

Import Validation.

Context `{EmailValidator}.

Lemma isValidPhone_falsy (v : JSValue) :
  truthy v = false -> isValidPhone v = Return false.
Proof. intros Hv. unfold isValidPhone. by rewrite Hv. Qed.

Lemma isValidEircode_falsy (v : JSValue) :
  truthy v = false -> isValidEircode v = Return false.
Proof. intros Hv. unfold isValidEircode. by rewrite Hv. Qed.

Lemma isValidEircode_truthy (v : JSValue) :
  truthy v = true ->
  isValidEircode v = (cleaned ← trim_method v; Return (test_eircode cleaned)).
Proof. intros Hv. unfold isValidEircode. by rewrite Hv. Qed.

Lemma validateRecord_form_verdict (record : gmap string JSValue) :
  (exists v, validateRecord record "form" = Return v /\ isValid v = true)
  <->
  isValidName (get record "first_name") = Return true
  /\ isValidName (get record "last_name") = Return true
  /\ isValidEmail (get record "email") = Return true
  /\ isValidPhone (get record "phone_number") = Return true
  /\ isValidEircode (get record "eircode") = Return true.
Proof.
  unfold validateRecord.
  destruct (isValidName_total (get record "first_name")) as [b1 Hb1].
  destruct (isValidName_total (get record "last_name")) as [b2 Hb2].
  destruct (isValidPhone_total (get record "phone_number")) as [b4 Hb4].
  rewrite Hb1, Hb2.
  destruct (isValidEmail (get record "email")) as [b3|e3];
    cbn [mbind result_bind bind];
    [|split; [intros (v & [=] & _) | intros (_ & _ & [=] & _)]].
  change (String.eqb "form" "form") with true. cbv iota.
  destruct (truthy (get record "phone_number")) eqn:Hph;
    [rewrite Hb4 | rewrite (isValidPhone_falsy _ Hph) in *];
    (destruct (truthy (get record "eircode")) eqn:Hei;
     [destruct (isValidEircode (get record "eircode")) as [b5|e5]
     | rewrite (isValidEircode_falsy _ Hei) in *]);
    cbn [mbind result_bind bind negb];
    (split;
     [ intros (v & Hv & Hvalid); try discriminate;
       injection Hv as <-; cbn [isValid] in Hvalid;
       repeat match goal with b : bool |- _ => destruct b end;
       try discriminate; repeat split; congruence
     | intros (E1 & E2 & E3 & E4 & E5); try discriminate;
       injection E1 as ->; injection E2 as ->; injection E3 as ->;
       try (injection E4 as ->); try (injection E5 as ->);
       try discriminate;
       eexists; split; reflexivity ]).
Qed.

(** X9. For the form source the record validator returns a valid result
    exactly when the five field validators all answer true: both names, the
    email, the phone number and the eircode. *)
Theorem validateRecord_form_valid_iff (record : gmap string JSValue) :
  (exists v, validateRecord record "form" = Return v /\ isValid v = true)
  <->
  isValidName (get record "first_name") = Return true
  /\ isValidName (get record "last_name") = Return true
  /\ isValidEmail (get record "email") = Return true
  /\ isValidPhone (get record "phone_number") = Return true
  /\ isValidEircode (get record "eircode") = Return true.
Proof. apply validateRecord_form_verdict. Qed.

(** X10. For the csv source the record validator returns a valid result
    exactly when both names and the email are accepted and the age is
    either falsy (absent, empty, 0 or NaN) or parses to an integer between
    0 and 120. *)
Theorem validateRecord_csv_valid_iff (record : gmap string JSValue) :
  (exists v, validateRecord record "csv" = Return v /\ isValid v = true)
  <->
  isValidName (get record "first_name") = Return true
  /\ isValidName (get record "last_name") = Return true
  /\ isValidEmail (get record "email") = Return true
  /\ (truthy (get record "age") = false \/ age_in_range (get record "age")).
Proof.
  unfold validateRecord.
  destruct (isValidName_total (get record "first_name")) as [b1 Hb1].
  destruct (isValidName_total (get record "last_name")) as [b2 Hb2].
  destruct (isValidAge_total (get record "age")) as [b4 Hb4].
  pose proof (isValidAge_spec _ _ Hb4) as Hspec.
  rewrite Hb1, Hb2.
  destruct (isValidEmail (get record "email")) as [b3|e3];
    cbn [mbind result_bind bind];
    [|split; [intros (v & [=] & _) | intros (_ & _ & [=] & _)]].
  change (String.eqb "csv" "form") with false.
  change (String.eqb "csv" "csv") with true. cbv iota.
  destruct (truthy (get record "age")) eqn:Hage;
    [rewrite Hb4|]; cbn [mbind result_bind bind negb].
  - split.
    + intros (v & Hv & Hvalid). injection Hv as <-. cbn [isValid] in Hvalid.
      destruct b1, b2, b3, b4; try discriminate.
      repeat split. right. by apply Hspec.
    + intros (E1 & E2 & E3 & [E4|E4]); [discriminate|].
      injection E1 as ->; injection E2 as ->; injection E3 as ->.
      apply Hspec in E4 as ->. eexists; split; reflexivity.
  - split.
    + intros (v & Hv & Hvalid). injection Hv as <-. cbn [isValid] in Hvalid.
      destruct b1, b2, b3; try discriminate. repeat split. by left.
    + intros (E1 & E2 & E3 & _).
      injection E1 as ->; injection E2 as ->; injection E3 as ->.
      eexists; split; reflexivity.
Qed.

(** X11. With a source that is neither form nor csv only the common
    fields are checked: the result is valid exactly when both names and the
    email are accepted, whatever the phone number, the eircode and the age
    are. *)
Theorem validateRecord_other_source (record : gmap string JSValue)
    (source : string) :
  source <> "form" -> source <> "csv" ->
  ((exists v, validateRecord record source = Return v /\ isValid v = true)
   <->
   isValidName (get record "first_name") = Return true
   /\ isValidName (get record "last_name") = Return true
   /\ isValidEmail (get record "email") = Return true).
Proof.
  intros Hform Hcsv. unfold validateRecord.
  apply String.eqb_neq in Hform, Hcsv. rewrite Hform, Hcsv.
  destruct (isValidName_total (get record "first_name")) as [b1 Hb1].
  destruct (isValidName_total (get record "last_name")) as [b2 Hb2].
  rewrite Hb1, Hb2.
  destruct (isValidEmail (get record "email")) as [b3|e3];
    cbn [mbind result_bind bind];
    [|split; [intros (v & [=] & _) | intros (_ & _ & [=])]].
  split.
  - intros (v & Hv & Hvalid). injection Hv as <-. cbn [isValid] in Hvalid.
    by destruct b1, b2, b3.
  - intros (E1 & E2 & E3).
    injection E1 as ->; injection E2 as ->; injection E3 as ->.
    eexists; split; reflexivity.
Qed.

End RecordVerdict.

Lemma validateRecord_other_source_witness :
  exists v,
    @Validation.validateRecord sample_validator record_old_age "batch" = Return v
    /\ isValid v = true.
Proof.
  apply (@validateRecord_other_source sample_validator record_old_age "batch");
    [discriminate | discriminate |].
  split; [reflexivity | split; reflexivity].
Defined.

(** ** The store: single and bulk upserts *)

Section Upserts.

Lemma insertRecord_cases (data : gmap string JSValue) (st : Store) :
  (exists e st', Database1.insertRecord data st = (Throw e, st')
                 /\ committed st' = committed st)
  \/ (exists st', Database1.insertRecord data st = (Return (), st')
                  /\ committed st'
                     = run_statement (committed st) (contactStatement data)).
Proof.
  unfold Database1.insertRecord, Database1.execute, MySQL.pool_execute.
  pose proof (request_committed st) as Hreq.
  destruct (MySQL.request st) as [[] st1]; cbn [snd] in Hreq.
  - left. by eauto.
  - right. eexists. split; [reflexivity|]. cbn [committed]. by rewrite Hreq.
Qed.



(** X13. The last write wins: after two successful [insertRecord] calls for
    the same email, the table is what the second call alone would have
    left. *)
Theorem insertRecord_last_write_wins (d1 d2 : gmap string JSValue)
    (st st1 st2 : Store) :
  Database1.insertRecord d1 st = (Return (), st1) ->
  Database1.insertRecord d2 st1 = (Return (), st2) ->
  get d1 "email" = get d2 "email" ->
  committed st2 = run_statement (committed st) (contactStatement d2).
Proof.
  intros H1 H2 Hsame.
  destruct (insertRecord_cases d1 st)
    as [(e & st' & Hcase & _)|(st' & Hcase & Hrun1)];
    rewrite Hcase in H1; [discriminate|]. injection H1 as <-.
  destruct (insertRecord_cases d2 st')
    as [(e & st'' & Hcase2 & _)|(st'' & Hcase2 & Hrun2)];
    rewrite Hcase2 in H2; [discriminate|]. injection H2 as <-.
  rewrite Hrun2, Hrun1. cbn [contactStatement run_statement].
  rewrite Hsame. apply insert_insert_eq.
Qed.

Lemma insertRecord_last_write_wins_witness :
  committed
    (snd (Database1.insertRecord record_ann
            (snd (Database1.insertRecord record_age_zero store_empty))))
  = run_statement (committed store_empty) (contactStatement record_ann).
Proof.
  apply (insertRecord_last_write_wins record_age_zero record_ann
           store_empty _ _ eq_refl eq_refl).
  reflexivity.
Defined.


Lemma request_script (st : Store) :
  match firstFailure (script st) with
  | Some 0%nat => fst (MySQL.request st) = true
  | Some (S i) =>
      fst (MySQL.request st) = false
      /\ firstFailure (script (snd (MySQL.request st))) = Some i
  | None =>
      fst (MySQL.request st) = false
      /\ firstFailure (script (snd (MySQL.request st))) = None
  end.
Proof.
  unfold MySQL.request. destruct (script st) as [|[] rest] eqn:Hs;
    cbn [firstFailure fst snd script]; [by rewrite Hs | done |].
  destruct (firstFailure rest); cbn; done.
Qed.

(** The loop of the first definition, against the script of the server. *)
Lemma Database1_insertEach_script (records : list (gmap string JSValue)) :
  forall st : Store,
    match firstFailure (script st) with
    | Some i =>
        if (i <? length records)%nat
        then exists e st',
               Database1.insertEach records st = (Throw e, st')
               /\ committed st'
                  = foldl run_statement (committed st)
                      (List.map contactStatement (take i records))
        else exists st',
               Database1.insertEach records st = (Return (), st')
               /\ committed st'
                  = foldl run_statement (committed st)
                      (List.map contactStatement records)
               /\ firstFailure (script st') = Some (i - length records)%nat
    | None =>
        exists st',
          Database1.insertEach records st = (Return (), st')
          /\ committed st'
             = foldl run_statement (committed st)
                 (List.map contactStatement records)
          /\ firstFailure (script st') = None
    end.
Proof.
  induction records as [|record rest IH]; intros st.
  - cbn [Database1.insertEach length List.map foldl].
    destruct (firstFailure (script st)) as [i|] eqn:Hfirst.
    + change (i <? 0)%nat with false. cbv iota.
      exists st. by rewrite Nat.sub_0_r.
    + by exists st.
  - cbn [Database1.insertEach length].
    unfold Database1.insertRecord, Database1.execute, MySQL.pool_execute.
    fold (contactStatement record).
    pose proof (request_script st) as Hreq.
    pose proof (request_committed st) as Hcom.
    destruct (MySQL.request st) as [fails st1]. cbn [fst snd] in Hreq, Hcom.
    destruct (firstFailure (script st)) as [[|i]|].
    + subst fails. change (0 <? S (length rest))%nat with true. cbv iota.
      exists (StoreError "query failed"), st1. split; [done|].
      by rewrite Hcom.
    + destruct Hreq as [-> Hnext].
      specialize (IH {| committed := run_statement (committed st1)
                                       (contactStatement record);
                        script := script st1 |}).
      cbn [script committed] in IH. rewrite Hnext in IH.
      change (S i <? S (length rest))%nat with (i <? length rest)%nat.
      destruct (i <? length rest)%nat.
      * destruct IH as (e & st' & Heach & Htable).
        exists e, st'. split; [exact Heach|].
        rewrite Htable, Hcom. reflexivity.
      * destruct IH as (st' & Heach & Htable & Hscript).
        exists st'. split; [exact Heach|]. split; [|exact Hscript].
        rewrite Htable, Hcom. reflexivity.
    + destruct Hreq as [-> Hnext].
      specialize (IH {| committed := run_statement (committed st1)
                                       (contactStatement record);
                        script := script st1 |}).
      cbn [script committed] in IH. rewrite Hnext in IH.
      destruct IH as (st' & Heach & Htable & Hscript).
      exists st'. split; [exact Heach|]. split; [|exact Hscript].
      rewrite Htable, Hcom. reflexivity.
Qed.

(** X14. The first definition of [insertBulkRecords] leaves in the table
    the upserts of exactly the records that precede the first failing
    request: each record is one request, in order, and the commit is one
    more.  It returns when no request up to the commit fails, and throws
    otherwise, with the records before the failure committed. *)
Theorem Database1_bulk_commits_prefix (records : list (gmap string JSValue))
    (st : Store) :
  committed (snd (Database1.insertBulkRecords records st))
  = foldl run_statement (committed st)
      (List.map contactStatement
         match firstFailure (script st) with
         | Some i => take i records
         | None => records
         end)
  /\ ((exists x, fst (Database1.insertBulkRecords records st) = Return x)
      <-> match firstFailure (script st) with
          | Some i => (length records < i)%nat
          | None => True
          end).
Proof.
  unfold Database1.insertBulkRecords.
  pose proof (Database1_insertEach_script records st) as Heach.
  destruct (firstFailure (script st)) as [i|].
  - destruct (i <? length records)%nat eqn:Hi.
    + apply Nat.ltb_lt in Hi.
      destruct Heach as (e & st' & -> & Htable). cbn [fst snd].
      split; [exact Htable|]. split; [intros [x [=]] | lia].
    + apply Nat.ltb_ge in Hi.
      destruct Heach as (st' & -> & Htable & Hscript).
      unfold MySQL.commit.
      pose proof (request_script st') as Hreq.
      pose proof (request_committed st') as Hcom.
      destruct (MySQL.request st') as [fails st2]. cbn [fst snd] in Hreq, Hcom.
      rewrite Hscript in Hreq.
      rewrite (firstn_all2 records) by lia.
      destruct (i - length records)%nat as [|d] eqn:Hd.
      * subst fails. cbn [fst snd]. split; [congruence|].
        split; [intros [x [=]] | lia].
      * destruct Hreq as [-> _]. cbn [fst snd committed].
        cbn [MySQL.beginTransaction pending foldl].
        split; [congruence|]. split; [lia | eauto].
  - destruct Heach as (st' & -> & Htable & Hscript).
    unfold MySQL.commit.
    pose proof (request_script st') as Hreq.
    pose proof (request_committed st') as Hcom.
    destruct (MySQL.request st') as [fails st2]. cbn [fst snd] in Hreq, Hcom.
    rewrite Hscript in Hreq. destruct Hreq as [-> _].
    cbn [fst snd committed MySQL.beginTransaction pending foldl].
    split; [congruence|]. split; [done | eauto].
Qed.





Lemma run_bulkStatement_keeps (t : gmap JSValue Row)
    (record : gmap string JSValue) (k : JSValue) (row : Row) :
  t !! k = Some row ->
  exists row',
    run_statement t (bulkStatement record) !! k = Some row'
    /\ col_phone_number row' = col_phone_number row
    /\ col_eircode row' = col_eircode row.
Proof.
  intros Hk. cbn [bulkStatement run_statement].
  destruct (decide (k = get record "email")) as [->|Hne].
  - rewrite Hk. eexists. split; [apply lookup_insert_eq|]. done.
  - exists row. split; [|done].
    destruct (t !! get record "email"); by rewrite lookup_insert_ne.
Qed.

Lemma foldl_bulkStatement_keeps (records : list (gmap string JSValue)) :
  forall (t : gmap JSValue Row) (k : JSValue) (row : Row),
    t !! k = Some row ->
    exists row',
      foldl run_statement t (List.map bulkStatement records) !! k = Some row'
      /\ col_phone_number row' = col_phone_number row
      /\ col_eircode row' = col_eircode row.
Proof.
  induction records as [|record rest IH]; intros t k row Hk; cbn [List.map foldl].
  - by exists row.
  - destruct (run_bulkStatement_keeps t record k row Hk)
      as (row1 & Hk1 & Hph1 & Hei1).
    destruct (IH _ k row1 Hk1) as (row2 & Hk2 & Hph2 & Hei2).
    exists row2. split; [exact Hk2|]. split; congruence.
Qed.

(** X16. The second definition of [insertBulkRecords] never removes a row
    and never changes the phone number or the eircode of a row that was in
    the table, whether it returns or throws. *)
Theorem Database2_bulk_keeps_contact_columns
    (records : list (gmap string JSValue)) (st : Store)
    (k : JSValue) (row : Row) :
  committed st !! k = Some row ->
  exists row',
    committed (snd (Database2.insertBulkRecords records st)) !! k = Some row'
    /\ col_phone_number row' = col_phone_number row
    /\ col_eircode row' = col_eircode row.
Proof.
  intros Hk.
  destruct (Database2.insertBulkRecords records st) as [[r|e] st'] eqn:Hbulk;
    cbn [snd].
  - apply Database2_bulk_commits in Hbulk. rewrite Hbulk.
    by apply foldl_bulkStatement_keeps.
  - apply Database2_bulk_all_or_nothing in Hbulk. rewrite Hbulk. by exists row.
Qed.

Lemma Database2_bulk_keeps_contact_columns_witness :
  exists row',
    committed (snd (Database2.insertBulkRecords [record_ann; record_bob]
                      {| committed := table_with_ann; script := [] |}))
      !! JStr (u16 "ann@example.com") = Some row'
    /\ col_phone_number row' = JStr (u16 "0871234567")
    /\ col_eircode row' = JStr (u16 "1A2B3C").
Proof.
  apply (Database2_bulk_keeps_contact_columns [record_ann; record_bob]
           {| committed := table_with_ann; script := [] |}
           (JStr (u16 "ann@example.com"))
           {| col_first_name := JStr (u16 "Ann");
              col_last_name := JStr (u16 "Lee");
              col_phone_number := JStr (u16 "0871234567");
              col_eircode := JStr (u16 "1A2B3C");
              col_age := JNull |}).
  reflexivity.
Defined.



(** X18. The second definition of [insertBulkRecords] is all-or-nothing:
    when it throws, whichever statement or the commit failed, the table is
    what it was before the call. *)
Theorem Database2_bulk_atomic (records : list (gmap string JSValue))
    (st st' : Store) (e : JSError) :
  Database2.insertBulkRecords records st = (Throw e, st') ->
  committed st' = committed st.
Proof. apply Database2_bulk_all_or_nothing. Qed.

Lemma Database2_bulk_atomic_witness :
  committed (snd (Database2.insertBulkRecords [record_ann; record_bob]
                    {| committed := table_with_ann; script := [false; true] |}))
  = table_with_ann.
Proof.
  apply (Database2_bulk_atomic [record_ann; record_bob]
           {| committed := table_with_ann; script := [false; true] |}
           _ (StoreError "query failed")).
  reflexivity.
Defined.

End Upserts.

(** ** The batch pipeline on any upload *)

Section Batch.

Import Validation.

Context `{EmailValidator}.

Lemma onData_step (acc : Server.Progress) (row : gmap string (list N)) :
  Server.rowNumber (Server.onData acc row) = S (Server.rowNumber acc)
  /\ (if rowAccepted row
      then Server.records (Server.onData acc row)
           = Server.records acc ++ [acceptedRecord row]
           /\ Server.row_errors (Server.onData acc row) = Server.row_errors acc
      else Server.records (Server.onData acc row) = Server.records acc
           /\ exists entry,
                Server.row_errors (Server.onData acc row)
                = Server.row_errors acc ++ [entry]
                /\ entryRow entry = S (Server.rowNumber acc)
                /\ entryReports entry row).
Proof.
  unfold Server.onData, rowAccepted, acceptedRecord.
  destruct (validateRecord (Server.candidate row) "csv") as [[valid errs]|e]
    eqn:Hv; cbn [isValid errors].
  - destruct valid;
      cbn [Server.records Server.row_errors Server.rowNumber];
      (split; [done|]); (split; [done|]).
    + done.
    + eexists. split; [reflexivity|]. split; [done|].
      unfold entryReports. by rewrite Hv.
  - cbn [Server.records Server.row_errors Server.rowNumber].
    split; [done|]. split; [done|]. eexists. split; [reflexivity|].
    split; [done|]. unfold entryReports. rewrite Hv. eauto.
Qed.

(** What the accumulators hold after the rows have been read. *)
Lemma onData_fold (rows : list (gmap string (list N))) :
  forall acc : Server.Progress,
    let final := foldl Server.onData acc rows in
    Server.rowNumber final = (Server.rowNumber acc + length rows)%nat
    /\ Server.records final
       = Server.records acc
         ++ List.map acceptedRecord (List.filter rowAccepted rows)
    /\ exists entries,
         Server.row_errors final = Server.row_errors acc ++ entries
         /\ length entries
            = length (List.filter (fun row => negb (rowAccepted row)) rows)
         /\ (forall i entry,
               entries !! i = Some entry ->
               (Server.rowNumber acc < entryRow entry
                <= Server.rowNumber acc + length rows)%nat
               /\ (exists row,
                     rows !! (entryRow entry - S (Server.rowNumber acc))%nat
                     = Some row /\ entryReports entry row)
               /\ (forall j later, (i < j)%nat -> entries !! j = Some later ->
                                   (entryRow entry < entryRow later)%nat)).
Proof.
  induction rows as [|row rest IH]; intros acc; cbn [foldl length List.filter].
  - rewrite Nat.add_0_r, app_nil_r. split; [done|]. split; [done|].
    exists []. rewrite app_nil_r. split; [done|]. split; [done|].
    intros i entry Hi. by rewrite lookup_nil in Hi.
  - destruct (IH (Server.onData acc row)) as (Hnum & Hrecs & entries & Herrs & Hlen & Hent).
    destruct (onData_step acc row) as [Hn Hstep].
    rewrite Hn in *.
    split; [lia|].
    destruct (rowAccepted row) eqn:Hacc; cbn [negb].
    + destruct Hstep as [Hr He]. rewrite Hr, He in *.
      split; [by rewrite Hrecs, <- app_assoc|].
      exists entries. split; [done|]. split; [done|].
      intros i entry Hi. destruct (Hent i entry Hi) as (Hb & (r & Hr' & Hrep) & Hlater).
      split; [lia|]. split; [|exact Hlater].
      exists r. split; [|exact Hrep].
      replace (entryRow entry - S (Server.rowNumber acc))%nat
        with (S (entryRow entry - S (S (Server.rowNumber acc))))%nat by lia.
      exact Hr'.
    + destruct Hstep as [Hr (entry0 & He & Hrow0 & Hrep0)]. rewrite Hr, He in *.
      split; [done|].
      exists (entry0 :: entries). split; [by rewrite Herrs, <- app_assoc|].
      split; [cbn; by rewrite Hlen|].
      intros i entry Hi. destruct i as [|i]; cbn in Hi.
      * injection Hi as <-. rewrite Hrow0. split; [lia|]. split.
        -- exists row. rewrite Nat.sub_diag. done.
        -- intros j later Hj Hlater. destruct j as [|j]; [lia|]. cbn in Hlater.
           destruct (Hent j later Hlater) as (Hb & _). lia.
      * destruct (Hent i entry Hi) as (Hb & (r & Hr' & Hrep) & Hlater).
        split; [lia|]. split.
        -- exists r. split; [|exact Hrep].
           replace (entryRow entry - S (Server.rowNumber acc))%nat
             with (S (entryRow entry - S (S (Server.rowNumber acc))))%nat by lia.
           exact Hr'.
        -- intros j later Hj Hl. destruct j as [|j]; [lia|]. cbn in Hl.
           apply (Hlater j later); [lia | done].
Qed.

End Batch.

(** ** The upload handler on any upload *)

Section Handler.

Import Validation.

Context `{EmailValidator}.

Lemma filter_split_length {A} (p : A -> bool) (l : list A) :
  (length (List.filter p l) + length (List.filter (fun x => negb (p x)) l)
   = length l)%nat.
Proof.
  induction l as [|x l IH]; cbn [List.filter length]; [done|].
  destruct (p x); cbn [negb length]; lia.
Qed.

(** The accumulators of the handler when the stream ends. *)
Lemma onData_from_start (rows : list (gmap string (list N))) :
  let final :=
    foldl Server.onData
      {| Server.records := []; Server.row_errors := [];
         Server.rowNumber := 0 |} rows in
  Server.rowNumber final = length rows
  /\ Server.records final
     = List.map acceptedRecord (List.filter rowAccepted rows)
  /\ length (Server.row_errors final)
     = length (List.filter (fun row => negb (rowAccepted row)) rows)
  /\ (forall i entry,
        Server.row_errors final !! i = Some entry ->
        (1 <= entryRow entry <= length rows)%nat
        /\ (exists row,
              rows !! (entryRow entry - 1)%nat = Some row
              /\ entryReports entry row)
        /\ (forall j later, (i < j)%nat ->
              Server.row_errors final !! j = Some later ->
              (entryRow entry < entryRow later)%nat)).
Proof.
  intros final.
  destruct (onData_fold rows
              {| Server.records := []; Server.row_errors := [];
                 Server.rowNumber := 0 |})
    as (Hnum & Hrecs & entries & Herrs & Hlen & Hent).
  fold final in Hnum, Hrecs, Herrs.
  cbn [Server.rowNumber Server.records Server.row_errors app] in *.
  rewrite Herrs. split; [done|]. split; [done|]. split; [done|].
  intros i entry Hi.
  destruct (Hent i entry Hi) as (Hbounds & Hrow & Hlater).
  split; [lia|]. split; [|exact Hlater].
  destruct Hrow as (row & Hrow & Hrep). exists row. by split.
Qed.

Context `{Database}.

(** X19. The summary counts every row: totalRows is the number of rows of
    the upload, validRecords the number of rows whose candidate record
    validates, invalidRecords the number of the others, and the errors list
    has one entry per invalid row. *)
Theorem handleCSVUpload_summary_counts (up : Upload) (w : World)
    (summary : Summary) :
  fst (Server.handleCSVUpload up w) = ProcessingCompleted summary ->
  totalRows summary = length (rows up)
  /\ validRecords summary = length (List.filter rowAccepted (rows up))
  /\ (validRecords summary + invalidRecords summary = totalRows summary)%nat
  /\ length (summary_errors summary) = invalidRecords summary.
Proof.
  unfold Server.handleCSVUpload, Server.processUpload.
  destruct (file_path up) as [path|]; [|discriminate].
  destruct (stream_error up); [discriminate|].
  destruct (onData_from_start (rows up)) as (Hnum & Hrecs & Hlen & _).
  set (acc := foldl Server.onData _ _) in *.
  assert (Hsum : forall w1 : World,
            ProcessingCompleted
              {| totalRows := Server.rowNumber acc;
                 validRecords := length (Server.records acc);
                 invalidRecords := length (Server.row_errors acc);
                 summary_errors := Server.row_errors acc |}
            = ProcessingCompleted summary ->
            totalRows summary = length (rows up)
            /\ validRecords summary = length (List.filter rowAccepted (rows up))
            /\ (validRecords summary + invalidRecords summary
                = totalRows summary)%nat
            /\ length (summary_errors summary) = invalidRecords summary).
  { intros _ [= <-]. cbn [totalRows validRecords invalidRecords summary_errors].
    rewrite Hnum, Hrecs, Hlen, length_map.
    pose proof (filter_split_length rowAccepted (rows up)). done. }
  destruct (0 <? length (Server.records acc))%nat.
  - unfold Server.callBulk.
    destruct (insertBulkRecords _ _) as [[r|e] st]; cbn; [|discriminate].
    unfold Server.unlink; cbn. case_decide; cbn; [apply (Hsum w)|discriminate].
  - unfold Server.unlink; cbn. case_decide; cbn; [apply (Hsum w)|discriminate].
Qed.

(** X20. Every entry of the errors list reports a row of the upload by its
    position, counted from 1: the data and violations of that row's candidate
    record, or the message of the error its validation threw; and the entries
    are in increasing row order. *)
Theorem handleCSVUpload_error_entries (up : Upload) (w : World)
    (summary : Summary) :
  fst (Server.handleCSVUpload up w) = ProcessingCompleted summary ->
  forall i entry,
    summary_errors summary !! i = Some entry ->
    (1 <= entryRow entry <= length (rows up))%nat
    /\ (exists row,
          rows up !! (entryRow entry - 1)%nat = Some row
          /\ entryReports entry row)
    /\ (forall j later, (i < j)%nat ->
          summary_errors summary !! j = Some later ->
          (entryRow entry < entryRow later)%nat).
Proof.
  unfold Server.handleCSVUpload, Server.processUpload.
  destruct (file_path up) as [path|]; [|discriminate].
  destruct (stream_error up); [discriminate|].
  destruct (onData_from_start (rows up)) as (_ & _ & _ & Hent).
  set (acc := foldl Server.onData _ _) in *.
  assert (Hsum :
            ProcessingCompleted
              {| totalRows := Server.rowNumber acc;
                 validRecords := length (Server.records acc);
                 invalidRecords := length (Server.row_errors acc);
                 summary_errors := Server.row_errors acc |}
            = ProcessingCompleted summary ->
            summary_errors summary = Server.row_errors acc).
  { by intros [= <-]. }
  destruct (0 <? length (Server.records acc))%nat.
  - unfold Server.callBulk.
    destruct (insertBulkRecords _ _) as [[r|e] st]; cbn; [|discriminate].
    unfold Server.unlink; cbn. case_decide; cbn; [|discriminate].
    intros Heq. rewrite (Hsum Heq). exact Hent.
  - unfold Server.unlink; cbn. case_decide; cbn; [|discriminate].
    intros Heq. rewrite (Hsum Heq). exact Hent.
Qed.


(** X22. When no row of the upload is accepted (in particular when there
    is no row), the handler leaves the store alone, deletes the file and
    answers with a summary of zero valid records. *)
Theorem handleCSVUpload_nothing_accepted (up : Upload) (w : World)
    (path : string) :
  file_path up = Some path ->
  stream_error up = None ->
  path ∈ uploads w ->
  Forall (fun row => rowAccepted row = false) (rows up) ->
  exists entries,
    Server.handleCSVUpload up w
    = (ProcessingCompleted
         {| totalRows := length (rows up); validRecords := 0;
            invalidRecords := length (rows up); summary_errors := entries |},
       {| store := store w; uploads := uploads w ∖ {[path]};
          bulk_calls := bulk_calls w |})
    /\ length entries = length (rows up).
Proof.
  intros Hpath Hstream Hfile Hnone.
  unfold Server.handleCSVUpload, Server.processUpload.
  rewrite Hpath, Hstream.
  destruct (onData_from_start (rows up)) as (Hnum & Hrecs & Hlen & _).
  set (acc := foldl Server.onData _ _) in *.
  assert (Hfilter : List.filter rowAccepted (rows up) = []).
  { clear -Hnone. induction Hnone as [|row rest Hrow _ IH]; cbn; [done|].
    by rewrite Hrow. }
  pose proof (filter_split_length rowAccepted (rows up)) as Hsplit.
  rewrite Hfilter in Hrecs, Hsplit. cbn in Hrecs, Hsplit.
  rewrite Hrecs. cbn [length Nat.ltb Nat.leb].
  unfold Server.unlink. rewrite decide_True by done.
  exists (Server.row_errors acc). rewrite Hnum, Hlen, Hsplit. done.
Qed.

(** X26. When the handler answers with the summary, it has deleted the
    uploaded file, and no other file. *)
Theorem handleCSVUpload_completed_deletes_file (up : Upload) (w : World)
    (path : string) (summary : Summary) :
  file_path up = Some path ->
  fst (Server.handleCSVUpload up w) = ProcessingCompleted summary ->
  (path ∉ uploads (snd (Server.handleCSVUpload up w)))
  /\ (forall other, other <> path ->
         (other ∈ uploads (snd (Server.handleCSVUpload up w))
          <-> other ∈ uploads w)).
Proof.
  intros Hpath Hdone.
  rewrite (handleCSVUpload_success_deletes_file up w path summary Hpath Hdone).
  split.
  - rewrite elem_of_difference, elem_of_singleton. tauto.
  - intros other Hother.
    rewrite elem_of_difference, elem_of_singleton. tauto.
Qed.

End Handler.

Section HandlerOnDatabase2.

Context `{EmailValidator}.

(** X24. With the second definition of the database, and the uploaded
    file in the upload directory, a failed upload leaves the table as it
    was. *)
Theorem handleCSVUpload_failure_keeps_table (up : Upload) (w : World)
    (path msg : string) :
  file_path up = Some path ->
  path ∈ uploads w ->
  fst (@Server.handleCSVUpload _ database2 up w) = ProcessingFailed msg ->
  committed (store (snd (@Server.handleCSVUpload _ database2 up w)))
  = committed (store w).
Proof.
  intros Hpath Hfile.
  unfold Server.handleCSVUpload, Server.processUpload. rewrite Hpath.
  destruct (stream_error up); [done|].
  set (acc := foldl Server.onData _ _).
  destruct (0 <? length (Server.records acc))%nat.
  - unfold Server.callBulk. cbn [insertBulkRecords database2].
    destruct (Database2.insertBulkRecords _ _) as [[r|e] st] eqn:Hbulk; cbn.
    + unfold Server.unlink; cbn. by rewrite decide_True.
    + intros _. by apply Database2_bulk_all_or_nothing in Hbulk.
  - unfold Server.unlink; cbn. by rewrite decide_True.
Qed.

(** X25. With the second definition of the database, after a completed
    upload the table is the table before it with the statement of each
    accepted row applied, in the order of the rows. *)
Theorem handleCSVUpload_success_table (up : Upload) (w : World)
    (summary : Summary) :
  fst (@Server.handleCSVUpload _ database2 up w) = ProcessingCompleted summary ->
  committed (store (snd (@Server.handleCSVUpload _ database2 up w)))
  = foldl run_statement (committed (store w))
      (List.map bulkStatement
         (List.map acceptedRecord (List.filter rowAccepted (rows up)))).
Proof.
  unfold Server.handleCSVUpload, Server.processUpload.
  destruct (file_path up) as [path|]; [|discriminate].
  destruct (stream_error up); [discriminate|].
  destruct (onData_from_start (rows up)) as (_ & Hrecs & _).
  set (acc := foldl Server.onData _ _) in *.
  rewrite Hrecs.
  destruct (List.map acceptedRecord (List.filter rowAccepted (rows up)))
    as [|r rs] eqn:Hlist; cbn [length Nat.ltb Nat.leb].
  - unfold Server.unlink; cbn. by case_decide.
  - unfold Server.callBulk. cbn [insertBulkRecords database2].
    destruct (Database2.insertBulkRecords _ _) as [[res|e] st] eqn:Hbulk;
      cbn; [|discriminate].
    apply Database2_bulk_commits in Hbulk.
    unfold Server.unlink; cbn. case_decide; cbn; [|discriminate].
    intros _. exact Hbulk.
Qed.

End HandlerOnDatabase2.

Section HandlerWitnesses.

Lemma handleCSVUpload_summary_counts_witness :
  exists summary,
    fst (@Server.handleCSVUpload sample_validator database2
           upload_three world_ready) = ProcessingCompleted summary
    /\ totalRows summary = length (rows upload_three)
    /\ validRecords summary
       = length (List.filter (@rowAccepted sample_validator) (rows upload_three))
    /\ (validRecords summary + invalidRecords summary = totalRows summary)%nat
    /\ length (summary_errors summary) = invalidRecords summary.
Proof.
  eexists. split; [vm_compute; reflexivity|].
  apply (@handleCSVUpload_summary_counts sample_validator database2
           upload_three world_ready).
  vm_compute. reflexivity.
Defined.

Lemma handleCSVUpload_error_entries_witness :
  exists summary entry,
    fst (@Server.handleCSVUpload sample_validator database2
           upload_three world_ready) = ProcessingCompleted summary
    /\ summary_errors summary !! 0%nat = Some entry
    /\ (1 <= entryRow entry <= length (rows upload_three))%nat
    /\ (exists row,
          rows upload_three !! (entryRow entry - 1)%nat = Some row
          /\ @entryReports sample_validator entry row).
Proof.
  eexists. eexists. split; [vm_compute; reflexivity|].
  split; [reflexivity|].
  destruct (@handleCSVUpload_error_entries sample_validator database2
              upload_three world_ready _ eq_refl 0%nat _ eq_refl)
    as (Hbounds & Hrow & _).
  split; [exact Hbounds | exact Hrow].
Defined.


Lemma handleCSVUpload_nothing_accepted_witness :
  exists entries,
    @Server.handleCSVUpload sample_validator database2
      upload_rejected world_ready
    = (ProcessingCompleted
         {| totalRows := 2; validRecords := 0; invalidRecords := 2;
            summary_errors := entries |},
       {| store := store world_ready;
          uploads := uploads world_ready ∖ {[ "uploads/batch.csv" ]};
          bulk_calls := [] |})
    /\ length entries = 2%nat.
Proof.
  apply (@handleCSVUpload_nothing_accepted sample_validator database2
           upload_rejected world_ready "uploads/batch.csv").
  - reflexivity.
  - reflexivity.
  - vm_compute. reflexivity.
  - repeat constructor.
Defined.

Lemma handleCSVUpload_completed_deletes_file_witness :
  "uploads/batch.csv"
  ∉ uploads (snd (@Server.handleCSVUpload sample_validator database2
                    upload_three world_ready)).
Proof.
  eapply (@handleCSVUpload_completed_deletes_file sample_validator database2
            upload_three world_ready "uploads/batch.csv").
  - reflexivity.
  - vm_compute. reflexivity.
Defined.

Lemma handleCSVUpload_failure_keeps_table_witness :
  committed (store (snd (@Server.handleCSVUpload sample_validator database2
                           upload_ann_bob world_failing_second)))
  = committed (store world_failing_second).
Proof.
  apply (@handleCSVUpload_failure_keeps_table sample_validator
           upload_ann_bob world_failing_second
           "uploads/batch.csv" "query failed").
  - reflexivity.
  - vm_compute. reflexivity.
  - vm_compute. reflexivity.
Defined.

Lemma handleCSVUpload_success_table_witness :
  committed (store (snd (@Server.handleCSVUpload sample_validator database2
                           upload_three world_ready)))
  = foldl run_statement ∅ [bulkStatement (acceptedRecord row_ann)].
Proof.
  eapply (@handleCSVUpload_success_table sample_validator
            upload_three world_ready).
  vm_compute. reflexivity.
Defined.

End HandlerWitnesses.

(** ** The form route *)

Section FormRoute.

Import Validation.

Context `{EmailValidator}.

Lemma find_first {A} (p : A -> bool) (l : list A) (x : A) :
  List.find p l = Some x ->
  exists before after,
    l = before ++ x :: after
    /\ p x = true
    /\ Forall (fun y => p y = false) before.
Proof.
  induction l as [|y l IH]; cbn [List.find]; [discriminate|].
  destruct (p y) eqn:Hy.
  - intros [= <-]. exists [], l. by repeat split.
  - intros Hfind. destruct (IH Hfind) as (before & after & -> & Hx & Hall).
    exists (y :: before), after. repeat split; [done|]. by constructor.
Qed.

(** The middleware's three ways out, besides the crash. *)
Lemma validateFormInput_cases (body : gmap string JSValue) :
  let sane := sanitizeRecord body in
  snd (SecurityMiddleware.validateFormInput body) = sane
  /\ match fst (SecurityMiddleware.validateFormInput body) with
     | MissingRequiredField field =>
         List.find (fun field => negb (truthy (get sane field)))
           SecurityMiddleware.requiredFields = Some field
     | Next =>
         List.find (fun field => negb (truthy (get sane field)))
           SecurityMiddleware.requiredFields = None
         /\ exists v, validateRecord (SecurityMiddleware.formData sane) "form"
                      = Return v /\ isValid v = true
     | ValidationFailed errs =>
         exists v, validateRecord (SecurityMiddleware.formData sane) "form"
                   = Return v /\ isValid v = false /\ errors v = errs
     | ValidationCrashed =>
         exists e, validateRecord (SecurityMiddleware.formData sane) "form"
                   = Throw e
     end.
Proof.
  intros sane. unfold SecurityMiddleware.validateFormInput. fold sane.
  destruct (List.find _ SecurityMiddleware.requiredFields) as [field|];
    [done|].
  destruct (validateRecord (SecurityMiddleware.formData sane) "form")
    as [[valid errs]|e]; cbn [isValid errors].
  - destruct valid; cbn; eauto.
  - cbn. eauto.
Qed.

(** When no required field is missing, the validated record is made of the
    camel-case fields of the body. *)
Lemma formData_camel_case (sane : gmap string JSValue) :
  List.find (fun field => negb (truthy (get sane field)))
    SecurityMiddleware.requiredFields = None ->
  get (SecurityMiddleware.formData sane) "first_name" = get sane "firstName"
  /\ get (SecurityMiddleware.formData sane) "last_name" = get sane "lastName"
  /\ get (SecurityMiddleware.formData sane) "email" = get sane "email"
  /\ get (SecurityMiddleware.formData sane) "phone_number"
     = get sane "phoneNumber"
  /\ get (SecurityMiddleware.formData sane) "eircode" = get sane "eircode".
Proof.
  unfold SecurityMiddleware.requiredFields. cbn [List.find].
  destruct (truthy (get sane "firstName")) eqn:H1; cbn [negb]; [|discriminate].
  destruct (truthy (get sane "lastName")) eqn:H2; cbn [negb]; [|discriminate].
  destruct (truthy (get sane "email")) eqn:H3; cbn [negb]; [|discriminate].
  destruct (truthy (get sane "phoneNumber")) eqn:H4; cbn [negb]; [|discriminate].
  intros _.
  change (get (SecurityMiddleware.formData sane) "first_name")
    with (or_else (get sane "firstName") (get sane "first_name")).
  change (get (SecurityMiddleware.formData sane) "last_name")
    with (or_else (get sane "lastName") (get sane "last_name")).
  change (get (SecurityMiddleware.formData sane) "phone_number")
    with (or_else (get sane "phoneNumber") (get sane "phone_number")).
  unfold or_else. rewrite H1, H2, H4. by repeat split.
Qed.

(** X27. When the form middleware passes a request on, the request body
    has been replaced by its sanitized copy and the five camel-case fields of
    that copy are accepted by their validators. *)
Theorem validateFormInput_next_sound (body : gmap string JSValue) :
  fst (SecurityMiddleware.validateFormInput body) = Next ->
  let sane := snd (SecurityMiddleware.validateFormInput body) in
  sane = sanitizeRecord body
  /\ isValidName (get sane "firstName") = Return true
  /\ isValidName (get sane "lastName") = Return true
  /\ isValidEmail (get sane "email") = Return true
  /\ isValidPhone (get sane "phoneNumber") = Return true
  /\ isValidEircode (get sane "eircode") = Return true.
Proof.
  intros Hnext sane.
  destruct (validateFormInput_cases body) as [Hsane Hcase].
  rewrite Hnext in Hcase. destruct Hcase as [Hfind Hvalid].
  subst sane. rewrite Hsane. split; [done|].
  apply validateRecord_form_verdict in Hvalid.
  destruct (formData_camel_case _ Hfind) as (E1 & E2 & E3 & E4 & E5).
  by rewrite E1, E2, E3, E4, E5 in Hvalid.
Qed.

(** X28. When the form middleware reports a missing field, it is the first
    of firstName, lastName, email, phoneNumber, eircode that is falsy in the
    sanitized body; snake-case names in the body do not stand in for it. *)
Theorem validateFormInput_missing_field (body : gmap string JSValue)
    (field : string) :
  fst (SecurityMiddleware.validateFormInput body) = MissingRequiredField field ->
  exists before after,
    SecurityMiddleware.requiredFields = before ++ field :: after
    /\ truthy (get (sanitizeRecord body) field) = false
    /\ Forall (fun earlier => truthy (get (sanitizeRecord body) earlier) = true)
         before.
Proof.
  intros Hmiss.
  destruct (validateFormInput_cases body) as [_ Hcase].
  rewrite Hmiss in Hcase.
  apply find_first in Hcase as (before & after & Hsplit & Hfield & Hbefore).
  exists before, after. split; [exact Hsplit|]. split.
  - by apply negb_true_iff.
  - eapply Forall_impl; [exact Hbefore|]. intros y Hy.
    by apply negb_false_iff.
Qed.

End FormRoute.

Section FormRouteStore.

Import Validation.

Context `{EmailValidator} `{ErrorCodes}.

(** X29. When the form route answers that the data was saved, the saved
    record is made of the sanitized camel-case fields, each accepted by its
    validator, and the table holds them under the record's email, with a
    NULL age whatever age the row had before. *)
Theorem submitFormRoute_saved (body : gmap string JSValue) (st : Store)
    (data : gmap string JSValue) :
  fst (@Server.submitFormRoute _ database1 _ body st) = Handled (FormSaved data) ->
  let sane := sanitizeRecord body in
  let st' := snd (@Server.submitFormRoute _ database1 _ body st) in
  (get data "first_name" = get sane "firstName"
   /\ get data "last_name" = get sane "lastName"
   /\ get data "email" = get sane "email"
   /\ get data "phone_number" = get sane "phoneNumber"
   /\ get data "eircode" = get sane "eircode")
  /\ (isValidName (get data "first_name") = Return true
      /\ isValidName (get data "last_name") = Return true
      /\ isValidEmail (get data "email") = Return true
      /\ isValidPhone (get data "phone_number") = Return true
      /\ isValidEircode (get data "eircode") = Return true)
  /\ committed st' !! get data "email"
     = Some {| col_first_name := get data "first_name";
               col_last_name := get data "last_name";
               col_phone_number := get data "phone_number";
               col_eircode := get data "eircode";
               col_age := JNull |}.
Proof.
  unfold Server.submitFormRoute.
  destruct (validateFormInput_cases body) as [Hsane Hcase].
  destruct (SecurityMiddleware.validateFormInput body) as [outcome body'].
  cbn [fst snd] in Hsane, Hcase. subst body'.
  destruct outcome; try discriminate.
  destruct Hcase as [Hfind Hvalid].
  unfold Server.handleFormSubmission.
  change (Server.formData (sanitizeRecord body))
    with (SecurityMiddleware.formData (sanitizeRecord body)).
  set (fd := SecurityMiddleware.formData (sanitizeRecord body)) in *.
  cbn [insertRecord database1].
  destruct (insertRecord_cases fd st)
    as [(e & st1 & Hins & _)|(st1 & Hins & Hrun)]; rewrite Hins.
  - destruct (isDupEntry e); discriminate.
  - cbn [fst snd]. intros [= <-].
    apply validateRecord_form_verdict in Hvalid.
    destruct (formData_camel_case _ Hfind) as (E1 & E2 & E3 & E4 & E5).
    split; [done|]. split; [exact Hvalid|].
    rewrite Hrun. cbn [contactStatement run_statement].
    rewrite lookup_insert_eq. f_equal.
    destruct Hvalid as (_ & _ & _ & Hphone & Heir).
    assert (Hpt : truthy (get fd "phone_number") = true).
    { destruct (truthy (get fd "phone_number")) eqn:Ht; [done|].
      rewrite (isValidPhone_falsy _ Ht) in Hphone. discriminate. }
    assert (Het : truthy (get fd "eircode") = true).
    { destruct (truthy (get fd "eircode")) eqn:Ht; [done|].
      rewrite (isValidEircode_falsy _ Ht) in Heir. discriminate. }
    unfold or_else. rewrite Hpt, Het. reflexivity.
Qed.

(** X30. The form route changes the table only when it answers that the
    data was saved: a request the middleware rejects, and a request whose
    insert fails, leave the table as it was. *)
Theorem submitFormRoute_otherwise_unchanged (body : gmap string JSValue)
    (st : Store) :
  (forall data,
      fst (@Server.submitFormRoute _ database1 _ body st)
      <> Handled (FormSaved data)) ->
  committed (snd (@Server.submitFormRoute _ database1 _ body st))
  = committed st.
Proof.
  unfold Server.submitFormRoute.
  destruct (SecurityMiddleware.validateFormInput body) as [outcome body'].
  destruct outcome; try done.
  unfold Server.handleFormSubmission. cbn [insertRecord database1].
  destruct (insertRecord_cases (Server.formData body') st)
    as [(e & st1 & Hins & Hsame)|(st1 & Hins & Hrun)]; rewrite Hins.
  - intros _. by destruct (isDupEntry e).
  - cbn [fst]. intros Hno. by destruct (Hno (Server.formData body')).
Qed.

End FormRouteStore.

Section FormRouteWitnesses.

Lemma validateFormInput_next_sound_witness :
  let sane := snd (@SecurityMiddleware.validateFormInput sample_validator
                     body_ann) in
  sane = Validation.sanitizeRecord body_ann
  /\ Validation.isValidName (get sane "firstName") = Return true
  /\ Validation.isValidName (get sane "lastName") = Return true
  /\ @Validation.isValidEmail sample_validator (get sane "email") = Return true
  /\ Validation.isValidPhone (get sane "phoneNumber") = Return true
  /\ Validation.isValidEircode (get sane "eircode") = Return true.
Proof.
  apply (@validateFormInput_next_sound sample_validator body_ann).
  vm_compute. reflexivity.
Defined.

Lemma validateFormInput_missing_field_witness :
  exists before after,
    SecurityMiddleware.requiredFields = before ++ "firstName" :: after
    /\ truthy (get (Validation.sanitizeRecord body_snake_case) "firstName")
       = false
    /\ Forall
         (fun earlier =>
            truthy (get (Validation.sanitizeRecord body_snake_case) earlier)
            = true)
         before.
Proof.
  apply (@validateFormInput_missing_field sample_validator body_snake_case).
  vm_compute. reflexivity.
Defined.

Lemma submitFormRoute_saved_witness :
  committed
    (snd (@Server.submitFormRoute sample_validator database1 sample_codes
            body_ann {| committed := table_ann_aged; script := [] |}))
    !! JStr (u16 "ann@example.com")
  = Some {| col_first_name := JStr (u16 "Ann");
            col_last_name := JStr (u16 "Lee");
            col_phone_number := JStr (u16 "087 123 4567");
            col_eircode := JStr (u16 "1A2B3C");
            col_age := JNull |}.
Proof.
  apply (proj2 (proj2 (@submitFormRoute_saved sample_validator sample_codes
           body_ann {| committed := table_ann_aged; script := [] |}
           _ eq_refl))).
Defined.

Lemma submitFormRoute_otherwise_unchanged_witness :
  committed
    (snd (@Server.submitFormRoute sample_validator database1 sample_codes
            body_ann {| committed := table_ann_aged; script := [true] |}))
  = table_ann_aged.
Proof.
  apply (@submitFormRoute_otherwise_unchanged sample_validator sample_codes
           body_ann {| committed := table_ann_aged; script := [true] |}).
  intros data. vm_compute. discriminate.
Defined.

End FormRouteWitnesses.
